(** * Forex risk simulator: the simulation engine of [IonAppComponent.tsx]

    The engine consists of three functions of the page component:
    [calculateBreakEvenRate], [simulateTrades] and
    [calculateWinRateOutcomes].  They are embedded here over an abstract
    interface of JavaScript numbers, so that the same program text runs
    - in IEEE 754 binary64 (what the JavaScript engine computes), and
    - in exact rational arithmetic (the reals the specification speaks of).

    Integer-valued numbers that only count (the trade index [i], the padding
    index [j], [numTrades] and the sweep counter [wr]) are integers [Z]; they
    enter the arithmetic through [num_of_Z]. *)

From Stdlib Require Import ZArith List Bool Lia.
From Stdlib Require Import Floats Uint63.
From Stdlib Require Import QArith Lqa.
From Stdlib Require Strings.String.
Import ListNotations.

Set Warnings "-inexact-float".

(** ** JavaScript numbers *)

Class JsNumber (num : Type) : Type := {
  num_of_Z : Z -> num;            (* an integer literal or counter as a number *)
  num_0_01 : num;                 (* the literal [0.01] *)
  num_add : num -> num -> num;
  num_sub : num -> num -> num;
  num_mul : num -> num -> num;
  num_div : num -> num -> num;
  num_ltb : num -> num -> bool;   (* [<]  *)
  num_leb : num -> num -> bool    (* [<=] *)
}.

Declare Scope js_scope.
Delimit Scope js_scope with js.
Infix "+" := num_add : js_scope.
Infix "-" := num_sub : js_scope.
Infix "*" := num_mul : js_scope.
Infix "/" := num_div : js_scope.
Infix "<?" := num_ltb : js_scope.
Infix "<=?" := num_leb : js_scope.
(* [a >= b] is [b <= a]; both are false as soon as one side is NaN. *)
Notation "a >=? b" := (num_leb b a) (at level 70) : js_scope.

(** IEEE 754 binary64: the numbers of the JavaScript engine. *)
Definition float_of_Z (z : Z) : float :=
  match z with
  | Z0 => PrimFloat.zero
  | Zpos _ => PrimFloat.of_uint63 (Uint63.of_Z z)
  | Zneg _ => PrimFloat.opp (PrimFloat.of_uint63 (Uint63.of_Z (- z)))
  end.

#[export] Instance Binary64 : JsNumber float := {
  num_of_Z := float_of_Z;
  num_0_01 := 0.01%float;
  num_add := PrimFloat.add;
  num_sub := PrimFloat.sub;
  num_mul := PrimFloat.mul;
  num_div := PrimFloat.div;
  num_ltb := PrimFloat.ltb;
  num_leb := PrimFloat.leb
}.

(** Exact rational arithmetic: the same operators without rounding.  The
    program divides by 100 and, where [rrRatio > 0], by [rrRatio + 1] only,
    so no division by zero is met. *)
Definition Qltb (a b : Q) : bool := negb (Qle_bool b a).

#[export] Instance Exact : JsNumber Q := {
  num_of_Z := inject_Z;
  num_0_01 := 1 # 100;
  num_add := Qplus;
  num_sub := Qminus;
  num_mul := Qmult;
  num_div := Qdiv;
  num_ltb := Qltb;
  num_leb := Qle_bool
}.

(** ** Data model (the TypeScript interfaces) *)

(* interface WinRateOutcome { winRate; finalBalance; isBreakEven }; the
   module keeps its [finalBalance] apart from the one [simulateTrades]
   returns. *)
Module WinRateOutcome.

Record t (num : Type) : Type := {
  winRate : Z;
  finalBalance : num;
  isBreakEven : bool
}.

Arguments winRate {num} _.
Arguments finalBalance {num} _.
Arguments isBreakEven {num} _.

End WinRateOutcome.

Section Engine.

Context {num : Type} {N : JsNumber num}.
Local Open Scope js_scope.

(* interface TradeHistoryItem { trade; balance; isWin? } *)
Record TradeHistoryItem : Type := {
  trade : Z;
  balance : num;
  isWin : option bool
}.

(* The object [{ finalBalance, tradeHistory }] returned by simulateTrades. *)
Record SimulationRun : Type := {
  finalBalance : num;
  tradeHistory : list TradeHistoryItem
}.

(** ** Math.random

    The generator is ambient state of the engine: a sequence of numbers still
    to be handed out and the count of those already consumed. *)
Record RandomState : Type := {
  draws : nat -> num;
  consumed : nat
}.

Definition Math_random (g : RandomState) : num * RandomState :=
  (draws g (consumed g), {| draws := draws g; consumed := S (consumed g) |}).

(** ** calculateBreakEvenRate *)
Definition calculateBreakEvenRate (rrRatio : num) : num :=
  if rrRatio <=? num_of_Z 0 then num_of_Z 100
  else (num_of_Z 1 / (rrRatio + num_of_Z 1)) * num_of_Z 100.

(** ** simulateTrades *)

(* for (let j = i + 1; j <= numTrades; j++) tradeHistory.push({j, 0, false}) ;
   [n] is the number of iterations left, [j] the counter. *)
Fixpoint pad_ruined (n : nat) (j : Z) (tradeHistory : list TradeHistoryItem)
  : list TradeHistoryItem :=
  match n with
  | O => tradeHistory
  | S n' =>
      pad_ruined n' (j + 1)
        (tradeHistory ++ [{| trade := j; balance := num_of_Z 0; isWin := Some false |}])
  end.

(* Body of one iteration up to the push: the draw, the outcome and the new
   balance. *)
Definition trade_step (riskDecimal rrRatio winRateDecimal : num)
    (i : Z) (currentBalance : num) (g : RandomState)
  : bool * num * RandomState :=
  let '(r, g') := Math_random g in
  let isWin := r <? winRateDecimal in
  let currentBalance' :=
    if isWin then currentBalance * (num_of_Z 1 + riskDecimal * rrRatio)
    else currentBalance * (num_of_Z 1 - riskDecimal) in
  (isWin, currentBalance', g').

(* for (let i = 1; i <= numTrades; i++) { ... } ; [n] is the number of
   iterations left when the counter is [i], [numTrades] at the start (none
   when [numTrades] is below 1).  The ruin branch pads and leaves the loop. *)
Fixpoint trade_loop (riskDecimal rrRatio winRateDecimal : num) (numTrades : Z)
    (n : nat) (i : Z) (currentBalance : num)
    (tradeHistory : list TradeHistoryItem) (g : RandomState)
  : num * list TradeHistoryItem * RandomState :=
  match n with
  | O => (currentBalance, tradeHistory, g)
  | S n' =>
      let '(isWin, currentBalance', g') :=
        trade_step riskDecimal rrRatio winRateDecimal i currentBalance g in
      let tradeHistory' :=
        tradeHistory ++ [{| trade := i; balance := currentBalance'; isWin := Some isWin |}] in
      if currentBalance' <=? num_0_01 then
        (num_of_Z 0,
         pad_ruined (Z.to_nat (numTrades - i)) (i + 1) tradeHistory',
         g')
      else
        trade_loop riskDecimal rrRatio winRateDecimal numTrades
          n' (i + 1) currentBalance' tradeHistory' g'
  end.

Definition simulateTrades (startBalance riskPerTrade rrRatio : num)
    (numTrades : Z) (winRate : num) (g : RandomState)
  : SimulationRun * RandomState :=
  let currentBalance := startBalance in
  let riskDecimal := riskPerTrade / num_of_Z 100 in
  let winRateDecimal := winRate / num_of_Z 100 in
  let tradeHistory := [{| trade := 0; balance := startBalance; isWin := None |}] in
  let '(currentBalance, tradeHistory, g') :=
    trade_loop riskDecimal rrRatio winRateDecimal numTrades
      (Z.to_nat numTrades) 1 currentBalance tradeHistory g in
  ({| finalBalance := currentBalance; tradeHistory := tradeHistory |}, g').

(** The two loops of [simulateTrades] as written, test included, run with
    fuel.  [pad_ruined] and [trade_loop] are these loops with the number of
    iterations computed beforehand; with enough fuel both readings agree
    (lemmas [for_padding_enough] and [for_trades_enough]). *)
Fixpoint for_padding (numTrades : Z) (fuel : nat) (j : Z)
    (tradeHistory : list TradeHistoryItem) : option (list TradeHistoryItem) :=
  match fuel with
  | O => None
  | S fuel' =>
      if (j <=? numTrades)%Z then
        for_padding numTrades fuel' (j + 1)
          (tradeHistory ++ [{| trade := j; balance := num_of_Z 0; isWin := Some false |}])
      else Some tradeHistory
  end.

Fixpoint for_trades (riskDecimal rrRatio winRateDecimal : num) (numTrades : Z)
    (fuel : nat) (i : Z) (currentBalance : num)
    (tradeHistory : list TradeHistoryItem) (g : RandomState)
  : option (num * list TradeHistoryItem * RandomState) :=
  match fuel with
  | O => None
  | S fuel' =>
      if (i <=? numTrades)%Z then
        let '(isWin, currentBalance', g') :=
          trade_step riskDecimal rrRatio winRateDecimal i currentBalance g in
        let tradeHistory' :=
          tradeHistory ++ [{| trade := i; balance := currentBalance'; isWin := Some isWin |}] in
        if currentBalance' <=? num_0_01 then
          match for_padding numTrades fuel' (i + 1) tradeHistory' with
          | Some padded => Some (num_of_Z 0, padded, g')
          | None => None
          end
        else
          for_trades riskDecimal rrRatio winRateDecimal numTrades
            fuel' (i + 1) currentBalance' tradeHistory' g'
      else Some (currentBalance, tradeHistory, g)
  end.

(** ** calculateWinRateOutcomes

    [Math.pow] is a builtin of the engine; it is a parameter here. *)
Section Projector.

Variable Math_pow : num -> Z -> num.

(* Body of one iteration of the sweep: the row pushed for the win rate [wr]. *)
Definition outcome_row (currentStartBalance currentRisk currentRR : num)
    (currentNumTrades : Z) (wr : Z) : WinRateOutcome.t num :=
  let winRateDecimal := num_of_Z wr / num_of_Z 100 in
  let riskDecimal := currentRisk / num_of_Z 100 in
  let winMultiplier := num_of_Z 1 + riskDecimal * currentRR in
  let lossMultiplier := num_of_Z 1 - riskDecimal in
  let averageMultiplier :=
    (winRateDecimal * winMultiplier) + ((num_of_Z 1 - winRateDecimal) * lossMultiplier) in
  let finalBal := currentStartBalance * Math_pow averageMultiplier currentNumTrades in
  {| WinRateOutcome.winRate := wr;
     WinRateOutcome.finalBalance := finalBal;
     WinRateOutcome.isBreakEven := num_of_Z wr >=? calculateBreakEvenRate currentRR |}.

(* for (let wr = 10; wr <= 90; wr += 10) outcomes.push(...) ; [n] is the
   number of iterations left when the counter is [wr]: (90 - 10) / 10 + 1 at
   the start. *)
Fixpoint sweep_loop (currentStartBalance currentRisk currentRR : num)
    (currentNumTrades : Z) (n : nat) (wr : Z) (outcomes : list (WinRateOutcome.t num))
  : list (WinRateOutcome.t num) :=
  match n with
  | O => outcomes
  | S n' =>
      sweep_loop currentStartBalance currentRisk currentRR currentNumTrades
        n' (wr + 10)
        (outcomes ++ [outcome_row currentStartBalance currentRisk currentRR
                        currentNumTrades wr])
  end.

Definition calculateWinRateOutcomes (currentStartBalance currentRisk currentRR : num)
    (currentNumTrades : Z) : list (WinRateOutcome.t num) :=
  sweep_loop currentStartBalance currentRisk currentRR currentNumTrades
    (Z.to_nat ((90 - 10) / 10 + 1)) 10 [].

(* The sweep as written, test included, run with fuel. *)
Fixpoint for_sweep (currentStartBalance currentRisk currentRR : num)
    (currentNumTrades : Z) (fuel : nat) (wr : Z)
    (outcomes : list (WinRateOutcome.t num))
  : option (list (WinRateOutcome.t num)) :=
  match fuel with
  | O => None
  | S fuel' =>
      if (wr <=? 90)%Z then
        for_sweep currentStartBalance currentRisk currentRR currentNumTrades
          fuel' (wr + 10)
          (outcomes ++ [outcome_row currentStartBalance currentRisk currentRR
                          currentNumTrades wr])
      else Some outcomes
  end.

End Projector.

End Engine.

Arguments TradeHistoryItem num : clear implicits.
Arguments SimulationRun num : clear implicits.
Arguments RandomState num : clear implicits.

(** * Vocabulary of the statements *)

Section LoopVocabulary.

Context {num : Type} {N : JsNumber num}.

(* The record pushed by the padding loop for index [j]. *)
Definition ruined_record (j : Z) : TradeHistoryItem num :=
  {| trade := j; balance := num_of_Z 0; isWin := Some false |}.

(* What the padding loop appends, from the front. *)
Fixpoint padding (n : nat) (j : Z) : list (TradeHistoryItem num) :=
  match n with
  | O => []
  | S n' => ruined_record j :: padding n' (j + 1)
  end.

(* The test of the ruin branch, [currentBalance <= 0.01], on a record. *)
Definition is_ruinous (x : TradeHistoryItem num) : bool :=
  (balance x <=? num_0_01)%js.

(* No trade before position [t] (position 0 is the initial record, which the
   loop never tests) left a balance at or below the threshold. *)
Definition survives_until (h : list (TradeHistoryItem num)) (t : nat) : Prop :=
  forall s x, (1 <= s < t)%nat -> nth_error h s = Some x -> is_ruinous x = false.

(* Trade [t] is the one at which the ruin branch is taken. *)
Definition ruin_trade (h : list (TradeHistoryItem num)) (t : nat) : Prop :=
  (1 <= t)%nat /\ survives_until h t /\
  exists r, nth_error h t = Some r /\ is_ruinous r = true.

Variables riskDecimal rrRatio winRateDecimal : num.
Variable numTrades : Z.

(* Outcome, balance and record of a trade whose draw is [r]. *)
Definition win_of (r : num) : bool := (r <? winRateDecimal)%js.

Definition balance_after (currentBalance r : num) : num :=
  if win_of r then (currentBalance * (num_of_Z 1 + riskDecimal * rrRatio))%js
  else (currentBalance * (num_of_Z 1 - riskDecimal))%js.

Definition record_of (i : Z) (currentBalance r : num) : TradeHistoryItem num :=
  {| trade := i; balance := balance_after currentBalance r; isWin := Some (win_of r) |}.

Definition next_draw (g : RandomState num) : num := draws g (consumed g).

Definition advance (g : RandomState num) : RandomState num :=
  {| draws := draws g; consumed := S (consumed g) |}.

(* What [trade_loop] computes, with the records it appends built from the
   front: final balance, appended records, generator. *)
Fixpoint run (n : nat) (i : Z) (currentBalance : num) (g : RandomState num)
  : num * list (TradeHistoryItem num) * RandomState num :=
  match n with
  | O => (currentBalance, [], g)
  | S n' =>
      let item := record_of i currentBalance (next_draw g) in
      if is_ruinous item then
        (num_of_Z 0, item :: padding (Z.to_nat (numTrades - i)) (i + 1), advance g)
      else
        let '(fb, l, g') := run n' (i + 1) (balance item) (advance g) in
        (fb, item :: l, g')
  end.

End LoopVocabulary.

(** Generators and a power function for concrete binary64 runs. *)

(* A generator that hands out the numbers of [l], then [d] for ever. *)
Definition draws_of_list (l : list float) (d : float) : RandomState float :=
  {| draws := fun n => nth n l d; consumed := 0 |}.

(* Twelve losing draws, then winning ones. *)
Definition losing_streak : RandomState float :=
  draws_of_list (repeat 0.999%float 12) 0%float.

(* A generator of exact numbers: a winning draw, then losing ones. *)
Definition exact_win_then_losses : RandomState Q :=
  {| draws := fun n => match n with O => 0%Q | _ => (999 # 1000)%Q end;
     consumed := 0 |}.

(* [Math.pow] at an integer exponent by repeated multiplication.  An engine
   rounds a power in its own way; at the exponents 0 and 1 every engine
   returns 1 and the base itself, and so does this function. *)
Definition pow_by_multiplication (x : float) (n : Z) : float :=
  match n with
  | Z0 => 1%float
  | Zpos p => Pos.iter_op PrimFloat.mul p x
  | Zneg p => (1 / Pos.iter_op PrimFloat.mul p x)%float
  end.

(** ** The trade count as a number

    [numTrades] is a JavaScript number, and so are the counters [i] and [j]
    of the two loops and the [trade] field the counters are stored in.  The
    definitions above take the count as an integer.  The module below keeps
    it a binary64 number, so that a count that is NaN, infinite or not an
    integer can be written.  The loops are those of the source, test
    included, and run with fuel: the result [None] says that the loop has
    not ended within the fuel given.  An array is a list, without a bound on
    its length. *)
Module NumberCount.

Local Open Scope float_scope.

(* interface TradeHistoryItem { trade; balance; isWin? } *)
Record TradeHistoryItem : Type := {
  trade : float;
  balance : float;
  isWin : option bool
}.

(* The object [{ finalBalance, tradeHistory }] returned by simulateTrades. *)
Record SimulationRun : Type := {
  finalBalance : float;
  tradeHistory : list TradeHistoryItem
}.

(* for (let j = i + 1; j <= numTrades; j++) tradeHistory.push({j, 0, false}) *)
Fixpoint for_padding (numTrades : float) (fuel : nat) (j : float)
    (tradeHistory : list TradeHistoryItem) : option (list TradeHistoryItem) :=
  match fuel with
  | O => None
  | S fuel' =>
      if j <=? numTrades then
        for_padding numTrades fuel' (j + 1)
          (tradeHistory ++ [{| trade := j; balance := 0; isWin := Some false |}])
      else Some tradeHistory
  end.

(* for (let i = 1; i <= numTrades; i++) { ... } *)
Fixpoint for_trades (riskDecimal rrRatio winRateDecimal numTrades : float)
    (fuel : nat) (i : float) (currentBalance : float)
    (tradeHistory : list TradeHistoryItem) (g : RandomState float)
  : option (float * list TradeHistoryItem * RandomState float) :=
  match fuel with
  | O => None
  | S fuel' =>
      if i <=? numTrades then
        let '(r, g') := Math_random g in
        let isWin := r <? winRateDecimal in
        let currentBalance' :=
          if isWin then currentBalance * (1 + riskDecimal * rrRatio)
          else currentBalance * (1 - riskDecimal) in
        let tradeHistory' :=
          tradeHistory ++ [{| trade := i; balance := currentBalance'; isWin := Some isWin |}] in
        if currentBalance' <=? 0.01 then
          match for_padding numTrades fuel' (i + 1) tradeHistory' with
          | Some padded => Some (0, padded, g')
          | None => None
          end
        else
          for_trades riskDecimal rrRatio winRateDecimal numTrades
            fuel' (i + 1) currentBalance' tradeHistory' g'
      else Some (currentBalance, tradeHistory, g)
  end.

Definition simulateTrades (fuel : nat)
    (startBalance riskPerTrade rrRatio numTrades winRate : float)
    (g : RandomState float) : option (SimulationRun * RandomState float) :=
  let currentBalance := startBalance in
  let riskDecimal := riskPerTrade / 100 in
  let winRateDecimal := winRate / 100 in
  let tradeHistory := [{| trade := 0; balance := startBalance; isWin := None |}] in
  match for_trades riskDecimal rrRatio winRateDecimal numTrades
          fuel 1 currentBalance tradeHistory g with
  | Some (currentBalance, tradeHistory, g') =>
      Some ({| finalBalance := currentBalance; tradeHistory := tradeHistory |}, g')
  | None => None
  end.

End NumberCount.

(* A record of the integer-count reading, with its index as a number. *)
Definition with_number_index (x : TradeHistoryItem float) : NumberCount.TradeHistoryItem :=
  {| NumberCount.trade := float_of_Z (trade x);
     NumberCount.balance := balance x;
     NumberCount.isWin := isWin x |}.

(* The domain the specification declares for the five parameters and for a
   draw; the source has no counterpart of these tests. *)
Definition declaredDomain (startBalance riskPerTrade rrRatio : float)
    (numTrades : Z) (winRate : float) : bool :=
  (is_finite startBalance && (0 <? startBalance)
   && is_finite riskPerTrade && (0 <? riskPerTrade) && (riskPerTrade <=? 100)
   && is_finite rrRatio && (0 <=? rrRatio)
   && (0 <? numTrades)%Z
   && is_finite winRate && (0 <=? winRate) && (winRate <=? 100))%float.

Definition declaredDraw (r : float) : bool := ((0 <=? r) && (r <? 1))%float.

(** * The page component around the engine *)

(** ** Profit and loss (the constants computed beside the results) *)

Section ProfitAndLoss.

Context {num : Type} {N : JsNumber num}.

(* const absoluteChange = simulationResults.finalBalance - startBalance *)
Definition absoluteChange (finalBalance startBalance : num) : num :=
  (finalBalance - startBalance)%js.

(* const percentageChange = (absoluteChange / startBalance) * 100 *)
Definition percentageChange (finalBalance startBalance : num) : num :=
  ((absoluteChange finalBalance startBalance / startBalance) * num_of_Z 100)%js.

(* const isPositive = simulationResults.finalBalance >= startBalance *)
Definition isPositive (finalBalance startBalance : num) : bool :=
  (finalBalance >=? startBalance)%js.

End ProfitAndLoss.

(** ** The form *)

Module Form.

(* What a field of [formik.values] holds: the empty string of a cleared
   input, [null], or a number.  The trade count is an integer number. *)
Inductive Value (A : Type) : Type :=
| EmptyString
| Null
| Number (a : A).

Arguments EmptyString {A}.
Arguments Null {A}.
Arguments Number {A} a.

(* interface FormValues *)
Record Values : Type := {
  startBalance : Value float;
  riskPerTrade : Value float;
  rrRatio : Value float;
  numTrades : Value Z;
  winRate : Value float
}.

(* The keys of FormValues. *)
Inductive Field : Type :=
| StartBalance | RiskPerTrade | RrRatio | NumTrades | WinRate.

(* [formik.errors]: the message of a field, when it has one. *)
Definition Errors : Type := Field -> option String.string.

(* [v === '' || v === null] *)
Definition blank {A : Type} (v : Value A) : bool :=
  match v with
  | EmptyString | Null => true
  | Number _ => false
  end.

(* [v || 0]: the empty string, null, NaN and both zeros are falsy. *)
Definition orZero (v : Value float) : float :=
  match v with
  | EmptyString | Null => 0%float
  | Number x => if (PrimFloat.is_nan x || PrimFloat.is_zero x)%bool then 0%float else x
  end.

End Form.

(* interface FieldLimitConfig, without label, icon and unit *)
Module FieldLimitConfig.

Record t (A : Type) : Type := {
  min : A;
  max : A;
  step : A
}.

Arguments min {A} _.
Arguments max {A} _.
Arguments step {A} _.

End FieldLimitConfig.

(* const FIELD_LIMITS *)
Module FIELD_LIMITS.

Definition startBalance : FieldLimitConfig.t float :=
  {| FieldLimitConfig.min := 10%float; FieldLimitConfig.max := 10000%float;
     FieldLimitConfig.step := 100%float |}.

Definition riskPerTrade : FieldLimitConfig.t float :=
  {| FieldLimitConfig.min := 0.5%float; FieldLimitConfig.max := 45%float;
     FieldLimitConfig.step := 0.1%float |}.

Definition rrRatio : FieldLimitConfig.t float :=
  {| FieldLimitConfig.min := 0.5%float; FieldLimitConfig.max := 20%float;
     FieldLimitConfig.step := 0.1%float |}.

Definition numTrades : FieldLimitConfig.t Z :=
  {| FieldLimitConfig.min := 10%Z; FieldLimitConfig.max := 1000%Z;
     FieldLimitConfig.step := 10%Z |}.

Definition winRate : FieldLimitConfig.t float :=
  {| FieldLimitConfig.min := 1%float; FieldLimitConfig.max := 99%float;
     FieldLimitConfig.step := 0.5%float |}.

End FIELD_LIMITS.

(* Yup.number().typeError(..).required(..).min(a).max(b): the value is a
   number (the empty string, null and NaN are refused) with
   [a <= value <= b]; [.integer()] holds of every integer trade count. *)
Definition number_between (limits : FieldLimitConfig.t float) (v : Form.Value float)
  : bool :=
  match v with
  | Form.Number x =>
      ((FieldLimitConfig.min limits <=? x) && (x <=? FieldLimitConfig.max limits))%float
  | _ => false
  end.

Definition integer_between (limits : FieldLimitConfig.t Z) (v : Form.Value Z) : bool :=
  match v with
  | Form.Number z =>
      ((FieldLimitConfig.min limits <=? z) && (z <=? FieldLimitConfig.max limits))%Z
  | _ => false
  end.

(* const validationSchema: whether the values pass every field's tests. *)
Definition validationSchema (values : Form.Values) : bool :=
  number_between FIELD_LIMITS.startBalance (Form.startBalance values)
  && number_between FIELD_LIMITS.riskPerTrade (Form.riskPerTrade values)
  && number_between FIELD_LIMITS.rrRatio (Form.rrRatio values)
  && integer_between FIELD_LIMITS.numTrades (Form.numTrades values)
  && number_between FIELD_LIMITS.winRate (Form.winRate values).

(* const areInputsValid: no field has an error and no value is empty. *)
Definition areInputsValid (errors : Form.Errors) (values : Form.Values) : bool :=
  let isEveryFieldValid :=
    forallb (fun key => match errors key with None => true | Some _ => false end)
      [Form.StartBalance; Form.RiskPerTrade; Form.RrRatio; Form.NumTrades; Form.WinRate] in
  let isEveryFieldNonEmpty :=
    negb (existsb (fun b : bool => b)
            [Form.blank (Form.startBalance values); Form.blank (Form.riskPerTrade values);
             Form.blank (Form.rrRatio values); Form.blank (Form.numTrades values);
             Form.blank (Form.winRate values)]) in
  isEveryFieldValid && isEveryFieldNonEmpty.

(** ** The state of the component and its handlers *)

(* interface SimulationResultsState *)
Module SimulationResultsState.

Record t : Type := {
  finalBalance : float;
  tradeHistory : list (TradeHistoryItem float);
  winRateOutcomes : list (WinRateOutcome.t float)
}.

End SimulationResultsState.

(* The state the handlers read and write: the form values, the two pieces of
   React state, and the generator behind [Math.random]. *)
Record Component : Type := {
  values : Form.Values;
  simulationActive : bool;
  simulationResults : SimulationResultsState.t;
  generator : RandomState float
}.

(* const initialValues *)
Definition initialValues : Form.Values :=
  {| Form.startBalance := Form.Number 100%float;
     Form.riskPerTrade := Form.Number 10%float;
     Form.rrRatio := Form.Number 4%float;
     Form.numTrades := Form.Number 100%Z;
     Form.winRate := Form.Number 50%float |}.

(* The state after the first render, whatever the generator holds. *)
Definition initialComponent (g : RandomState float) : Component :=
  {| values := initialValues;
     simulationActive := false;
     simulationResults :=
       {| SimulationResultsState.finalBalance := 100%float;
          SimulationResultsState.tradeHistory :=
            [{| trade := 0; balance := 100%float; isWin := None |}];
          SimulationResultsState.winRateOutcomes := [] |};
     generator := g |}.

(* The five numbers of a form without blank fields. *)
Definition numbers_of (values : Form.Values)
  : option (float * float * float * Z * float) :=
  match Form.startBalance values, Form.riskPerTrade values, Form.rrRatio values,
        Form.numTrades values, Form.winRate values with
  | Form.Number sb, Form.Number risk, Form.Number rr, Form.Number n, Form.Number wr =>
      Some (sb, risk, rr, n, wr)
  | _, _, _, _, _ => None
  end.

Section Handlers.

Variable Math_pow : float -> Z -> float.

(* The main simulation effect.  Valid inputs hold five numbers, so the last
   case of the first branch is not met. *)
Definition mainEffect (errors : Form.Errors) (c : Component) : Component :=
  if simulationActive c && areInputsValid errors (values c) then
    match numbers_of (values c) with
    | Some (startBalance, riskPerTrade, rrRatio, numTrades, winRate) =>
        let '(run, g') :=
          simulateTrades startBalance riskPerTrade rrRatio numTrades winRate
            (generator c) in
        let winRateOutcomes :=
          calculateWinRateOutcomes Math_pow startBalance riskPerTrade rrRatio numTrades in
        {| values := values c;
           simulationActive := simulationActive c;
           simulationResults :=
             {| SimulationResultsState.finalBalance := finalBalance run;
                SimulationResultsState.tradeHistory := tradeHistory run;
                SimulationResultsState.winRateOutcomes := winRateOutcomes |};
           generator := g' |}
    | None => c
    end
  else if simulationActive c && negb (areInputsValid errors (values c)) then
    {| values := values c;
       simulationActive := simulationActive c;
       simulationResults :=
         {| SimulationResultsState.finalBalance := 0%float;
            SimulationResultsState.tradeHistory :=
              [{| trade := 0; balance := Form.orZero (Form.startBalance (values c));
                  isWin := None |}];
            SimulationResultsState.winRateOutcomes := [] |};
       generator := generator c |}
  else c.

(* The effect that switches the simulation on once the inputs are valid. *)
Definition activationEffect (errors : Form.Errors) (c : Component) : Component :=
  if areInputsValid errors (values c) && negb (simulationActive c) then
    {| values := values c;
       simulationActive := true;
       simulationResults := simulationResults c;
       generator := generator c |}
  else c.

(* const handleRandomize *)
Definition handleRandomize (errors : Form.Errors) (c : Component) : Component :=
  if negb (areInputsValid errors (values c)) then c
  else
    match numbers_of (values c) with
    | Some (startBalance, riskPerTrade, rrRatio, numTrades, winRate) =>
        let '(run, g') :=
          simulateTrades startBalance riskPerTrade rrRatio numTrades winRate
            (generator c) in
        {| values := values c;
           simulationActive := simulationActive c;
           simulationResults :=
             {| SimulationResultsState.finalBalance := finalBalance run;
                SimulationResultsState.tradeHistory := tradeHistory run;
                SimulationResultsState.winRateOutcomes :=
                  SimulationResultsState.winRateOutcomes (simulationResults c) |};
           generator := g' |}
    | None => c
    end.

End Handlers.

(* const handleClear *)
Definition handleClear (c : Component) : Component :=
  {| values :=
       {| Form.startBalance := Form.EmptyString;
          Form.riskPerTrade := Form.EmptyString;
          Form.rrRatio := Form.EmptyString;
          Form.numTrades := Form.EmptyString;
          Form.winRate := Form.EmptyString |};
     simulationActive := false;
     simulationResults :=
       {| SimulationResultsState.finalBalance := 0%float;
          SimulationResultsState.tradeHistory :=
            [{| trade := 0; balance := 0%float; isWin := None |}];
          SimulationResultsState.winRateOutcomes := [] |};
     generator := generator c |}.

(* An input event: the form library stores whatever values it was given. *)
Definition editForm (newValues : Form.Values) (c : Component) : Component :=
  {| values := newValues;
     simulationActive := simulationActive c;
     simulationResults := simulationResults c;
     generator := generator c |}.

(* What can happen to the component. *)
Inductive Event : Type :=
| Edit (newValues : Form.Values)
| RunMainEffect (errors : Form.Errors)
| RunActivationEffect (errors : Form.Errors)
| ClickRandomize (errors : Form.Errors)
| ClickClear.

Definition react (Math_pow : float -> Z -> float) (c : Component) (e : Event)
  : Component :=
  match e with
  | Edit newValues => editForm newValues c
  | RunMainEffect errors => mainEffect Math_pow errors c
  | RunActivationEffect errors => activationEffect errors c
  | ClickRandomize errors => handleRandomize errors c
  | ClickClear => handleClear c
  end.

(* The shape every consumer of the results relies on: trade indices 0, 1,
   2, ... in order, a first record without outcome, an outcome table that is
   empty or has the nine win rates, and a final balance that is 0 or the
   balance of the last record. *)
Definition results_well_formed (r : SimulationResultsState.t) : Prop :=
  map (@trade float) (SimulationResultsState.tradeHistory r)
  = map Z.of_nat (seq 0 (length (SimulationResultsState.tradeHistory r))) /\
  (exists first, nth_error (SimulationResultsState.tradeHistory r) 0 = Some first /\
                 isWin first = None) /\
  (SimulationResultsState.winRateOutcomes r = [] \/
   map (@WinRateOutcome.winRate float) (SimulationResultsState.winRateOutcomes r)
   = [10; 20; 30; 40; 50; 60; 70; 80; 90]%Z) /\
  (SimulationResultsState.finalBalance r = 0%float \/
   SimulationResultsState.finalBalance r
   = balance (last (SimulationResultsState.tradeHistory r)
                {| trade := 0; balance := 0%float; isWin := None |})).


(* Zero and the finite numbers among the values of binary64. *)
Definition SFfinite (f : spec_float) : bool :=
  match f with
  | S754_zero _ | S754_finite _ _ _ => true
  | S754_infinity _ | S754_nan => false
  end.

(* The sign of a number that is not NaN. *)
Definition SFhas_sign (s : bool) (f : spec_float) : Prop :=
  match f with
  | S754_zero s' | S754_finite s' _ _ | S754_infinity s' => s' = s
  | S754_nan => False
  end.

(** * The loops as written and their trip counts *)

Section LoopsAsWritten.

Context {num : Type} {N : JsNumber num}.
Local Open Scope Z_scope.

Variables riskDecimal rrRatio winRateDecimal : num.
Variable numTrades : Z.

Lemma for_padding_enough fuel : forall j (h : list (TradeHistoryItem num)),
  (Z.to_nat (numTrades + 1 - j) < fuel)%nat ->
  for_padding numTrades fuel j h
  = Some (pad_ruined (Z.to_nat (numTrades + 1 - j)) j h).
Proof.
  induction fuel as [|fuel IH]; intros j h Hf; [lia|].
  cbn [for_padding]. destruct (j <=? numTrades) eqn:E.
  - apply Z.leb_le in E. rewrite IH by lia.
    replace (Z.to_nat (numTrades + 1 - j))
      with (S (Z.to_nat (numTrades + 1 - (j + 1)))) by lia.
    reflexivity.
  - apply Z.leb_gt in E.
    replace (Z.to_nat (numTrades + 1 - j)) with 0%nat by lia. reflexivity.
Qed.

Lemma for_trades_enough fuel : forall i b (h : list (TradeHistoryItem num)) g,
  (Z.to_nat (numTrades + 1 - i) < fuel)%nat ->
  for_trades riskDecimal rrRatio winRateDecimal numTrades fuel i b h g
  = Some (trade_loop riskDecimal rrRatio winRateDecimal numTrades
            (Z.to_nat (numTrades + 1 - i)) i b h g).
Proof.
  induction fuel as [|fuel IH]; intros i b h g Hf; [lia|].
  cbn [for_trades]. destruct (i <=? numTrades) eqn:E.
  - apply Z.leb_le in E.
    replace (Z.to_nat (numTrades + 1 - i))
      with (S (Z.to_nat (numTrades + 1 - (i + 1)))) in * by lia.
    cbn [trade_loop].
    destruct (trade_step riskDecimal rrRatio winRateDecimal i b g) as [[w b'] g'].
    destruct (b' <=? num_0_01)%js.
    + rewrite for_padding_enough by lia.
      replace (numTrades - i) with (numTrades + 1 - (i + 1)) by lia. reflexivity.
    + apply IH. lia.
  - apply Z.leb_gt in E.
    replace (Z.to_nat (numTrades + 1 - i)) with 0%nat by lia. reflexivity.
Qed.

End LoopsAsWritten.

(* [simulateTrades] is the loop as written, started at [i = 1]. *)
Lemma simulateTrades_as_written {num : Type} {N : JsNumber num}
    (startBalance riskPerTrade rrRatio : num) (numTrades : Z) (winRate : num)
    (g : RandomState num) (fuel : nat) :
  (Z.to_nat numTrades < fuel)%nat ->
  for_trades (riskPerTrade / num_of_Z 100)%js rrRatio (winRate / num_of_Z 100)%js
    numTrades fuel 1 startBalance
    [{| trade := 0; balance := startBalance; isWin := None |}] g
  = Some (let '(out, g') :=
            simulateTrades startBalance riskPerTrade rrRatio numTrades winRate g in
          (finalBalance out, tradeHistory out, g')).
Proof.
  intros Hf.
  assert (E : (numTrades + 1 - 1 = numTrades)%Z) by lia.
  rewrite for_trades_enough by (rewrite E; exact Hf).
  rewrite E. unfold simulateTrades.
  destruct (trade_loop _ _ _ _ _ _ _ _ _) as [[fb l] g']. reflexivity.
Qed.

(* [calculateWinRateOutcomes] is the sweep as written, started at [wr = 10]. *)
Lemma calculateWinRateOutcomes_as_written {num : Type} {N : JsNumber num}
    (pow : num -> Z -> num) (sb risk rr : num) (n : Z) (fuel : nat) :
  for_sweep pow sb risk rr n (10 + fuel) 10 []
  = Some (calculateWinRateOutcomes pow sb risk rr n).
Proof. reflexivity. Qed.

(** * Reading the loops

    The loops push at the end of [tradeHistory]; [run] builds the same
    records from the front, and the facts below are proved about it. *)

Section LoopFacts.

Context {num : Type} {N : JsNumber num}.
Local Open Scope Z_scope.

Variables riskDecimal rrRatio winRateDecimal : num.
Variable numTrades : Z.

Local Abbreviation Item := (TradeHistoryItem num).
Local Abbreviation the_run := (run riskDecimal rrRatio winRateDecimal numTrades).
Local Abbreviation the_record := (record_of riskDecimal rrRatio winRateDecimal).

Lemma trade_step_eq i b g :
  trade_step riskDecimal rrRatio winRateDecimal i b g
  = (win_of winRateDecimal (next_draw g),
     balance_after riskDecimal rrRatio winRateDecimal b (next_draw g),
     advance g).
Proof. reflexivity. Qed.

Lemma pad_ruined_padding n : forall j (h : list Item),
  pad_ruined n j h = h ++ padding n j.
Proof.
  induction n as [|n IH]; intros j h; simpl.
  - now rewrite app_nil_r.
  - rewrite IH, <- app_assoc. reflexivity.
Qed.

Lemma trade_loop_run n : forall i b (h : list Item) g,
  trade_loop riskDecimal rrRatio winRateDecimal numTrades n i b h g
  = let '(fb, l, g') := the_run n i b g in (fb, h ++ l, g').
Proof.
  induction n as [|n IH]; intros i b h g.
  - simpl. now rewrite app_nil_r.
  - cbn [trade_loop run]. rewrite trade_step_eq.
    change (is_ruinous (the_record i b (next_draw g)))
      with (balance_after riskDecimal rrRatio winRateDecimal b (next_draw g)
            <=? num_0_01)%js.
    destruct (balance_after riskDecimal rrRatio winRateDecimal b (next_draw g)
              <=? num_0_01)%js.
    + rewrite pad_ruined_padding, <- app_assoc. reflexivity.
    + rewrite IH. cbn [balance record_of].
      destruct (the_run n (i + 1) _ (advance g)) as [[fb l] g'].
      rewrite <- app_assoc. reflexivity.
Qed.

Lemma run_S n i b g :
  the_run (S n) i b g
  = let item := the_record i b (next_draw g) in
    if is_ruinous item then
      (num_of_Z 0, item :: padding (Z.to_nat (numTrades - i)) (i + 1), advance g)
    else
      let '(fb, l, g') := the_run n (i + 1) (balance item) (advance g) in
      (fb, item :: l, g').
Proof. reflexivity. Qed.

Lemma padding_length n : forall j, length (padding (num:=num) n j) = n.
Proof. induction n as [|n IH]; intros j; simpl; [reflexivity | now rewrite IH]. Qed.

Lemma padding_nth n : forall j q (x : Item),
  nth_error (padding n j) q = Some x -> x = ruined_record (j + Z.of_nat q).
Proof.
  induction n as [|n IH]; intros j q x H.
  - destruct q; discriminate.
  - destruct q as [|q]; simpl in H.
    + inversion H. now rewrite Z.add_0_r.
    + apply IH in H. subst x. f_equal. lia.
Qed.

Lemma padding_trades n : forall j,
  map (@trade num) (padding n j) = map (fun k => j + Z.of_nat k) (seq 0 n).
Proof.
  induction n as [|n IH]; intros j; [reflexivity|].
  cbn [padding map seq]. rewrite IH, <- seq_shift, map_map.
  f_equal; [simpl; lia|]. apply map_ext. intros k. lia.
Qed.

(* The cases of one more iteration, as a proof step. *)
Ltac run_cases n i b g H :=
  rewrite run_S in H; cbv zeta in H;
  let E := fresh "Eruin" in
  destruct (is_ruinous (the_record i b (next_draw g))) eqn:E;
  [ inversion H; subst; clear H
  | let fb := fresh "fb" in let l := fresh "l" in let g' := fresh "g'" in
    let R := fresh "Hrun" in
    destruct (the_run n (i + 1) (balance (the_record i b (next_draw g))) (advance g))
      as [[fb l] g'] eqn:R;
    inversion H; subst; clear H ].

Lemma run_length n : forall i b g fb l g',
  the_run n i b g = (fb, l, g') ->
  n = Z.to_nat (numTrades + 1 - i) ->
  length l = n.
Proof.
  induction n as [|n IH]; intros i b g fb l g' H Hn.
  - inversion H. reflexivity.
  - run_cases n i b g H; simpl.
    + rewrite padding_length. lia.
    + f_equal. eapply IH; [eassumption | lia].
Qed.

Lemma run_trades n : forall i b g fb l g',
  the_run n i b g = (fb, l, g') ->
  n = Z.to_nat (numTrades + 1 - i) ->
  map (@trade num) l = map (fun k => i + Z.of_nat k) (seq 0 n).
Proof.
  induction n as [|n IH]; intros i b g fb l g' H Hn.
  - now inversion H.
  - run_cases n i b g H; cbn [map seq]; rewrite <- seq_shift, map_map.
    + rewrite padding_trades. replace (Z.to_nat (numTrades - i)) with n by lia.
      f_equal; [simpl; lia|]. apply map_ext. intros k. lia.
    + erewrite IH; [|eassumption|lia].
      f_equal; [simpl; lia|]. apply map_ext. intros k. lia.
Qed.

Lemma run_draws n : forall i b g fb l g',
  the_run n i b g = (fb, l, g') -> draws g' = draws g.
Proof.
  induction n as [|n IH]; intros i b g fb l g' H.
  - now inversion H.
  - run_cases n i b g H; [reflexivity|].
    erewrite IH by eassumption. reflexivity.
Qed.

(* A trade made while no earlier trade was ruinous is the previous record's
   balance times the multiplier its own draw selects. *)
Lemma run_step n : forall i b g fb l g' (p : Item) t r,
  the_run n i b g = (fb, l, g') ->
  balance p = b ->
  survives_until (p :: l) (S t) ->
  nth_error (p :: l) (S t) = Some r ->
  exists prev, nth_error (p :: l) t = Some prev /\
    r = the_record (i + Z.of_nat t) (balance prev) (draws g (consumed g + t)).
Proof.
  induction n as [|n IH]; intros i b g fb l g' p t r H Hp Hs Hr.
  - inversion H; subst. destruct t; discriminate.
  - assert (Hhead : forall l', nth_error (p :: the_record i b (next_draw g) :: l') 1
                               = Some r ->
              exists prev, nth_error (p :: the_record i b (next_draw g) :: l') 0
                           = Some prev /\
                r = the_record (i + Z.of_nat 0) (balance prev)
                      (draws g (consumed g + 0))).
    { intros l' E. exists p. split; [reflexivity|]. simpl in E. inversion E.
      rewrite Hp, Z.add_0_r, Nat.add_0_r. reflexivity. }
    run_cases n i b g H.
    + destruct t as [|t]; [now apply Hhead|].
      specialize (Hs 1%nat (the_record i (balance p) (next_draw g))).
      rewrite Hs in Eruin; [discriminate | lia | reflexivity].
    + destruct t as [|t]; [now apply Hhead|].
      destruct (IH _ _ _ _ _ _ (the_record i (balance p) (next_draw g)) t r Hrun eq_refl)
        as [prev [Hprev Hrec]].
      * intros s x Hs' Hx. apply (Hs (S s) x); [lia | exact Hx].
      * exact Hr.
      * exists prev. split; [exact Hprev|].
        rewrite Hrec. unfold advance. cbn [consumed draws].
        replace (i + 1 + Z.of_nat t) with (i + Z.of_nat (S t)) by lia.
        now rewrite Nat.add_succ_r.
Qed.

(* Once a record of the loop is at or below the threshold, every later one
   is a padding record. *)
Lemma run_pad n : forall i b g fb l g' t r j x,
  the_run n i b g = (fb, l, g') ->
  nth_error l t = Some r -> is_ruinous r = true ->
  (t < j)%nat -> nth_error l j = Some x ->
  x = ruined_record (i + Z.of_nat j).
Proof.
  induction n as [|n IH]; intros i b g fb l g' t r j x H Hr Hruin Hj Hx.
  - inversion H; subst. destruct t; discriminate.
  - destruct j as [|j]; [lia|].
    run_cases n i b g H; simpl in Hx.
    + apply padding_nth in Hx. subst x. f_equal. lia.
    + destruct t as [|t]; simpl in Hr.
      * inversion Hr; subst r. congruence.
      * replace (i + Z.of_nat (S j)) with (i + 1 + Z.of_nat j) by lia.
        apply (IH _ _ _ _ _ _ t r j x Hrun Hr Hruin); [lia | exact Hx].
Qed.

Lemma run_final_ruin n : forall i b g fb l g' t r,
  the_run n i b g = (fb, l, g') ->
  nth_error l t = Some r -> is_ruinous r = true ->
  fb = num_of_Z 0.
Proof.
  induction n as [|n IH]; intros i b g fb l g' t r H Hr Hruin.
  - inversion H; subst. destruct t; discriminate.
  - run_cases n i b g H; [reflexivity|].
    destruct t as [|t]; simpl in Hr.
    + inversion Hr; subst r. congruence.
    + eapply IH; eassumption.
Qed.

(* The number of draws consumed is the position of the first ruinous trade. *)
Lemma run_consumed_ruin n : forall i b g fb l g' t r,
  the_run n i b g = (fb, l, g') ->
  nth_error l t = Some r -> is_ruinous r = true ->
  (forall s x, (s < t)%nat -> nth_error l s = Some x -> is_ruinous x = false) ->
  consumed g' = (consumed g + S t)%nat.
Proof.
  induction n as [|n IH]; intros i b g fb l g' t r H Hr Hruin Hfirst.
  - inversion H; subst. destruct t; discriminate.
  - run_cases n i b g H.
    + destruct t as [|t]; [simpl; lia|].
      specialize (Hfirst 0%nat _ (Nat.lt_0_succ t) eq_refl). congruence.
    + destruct t as [|t]; simpl in Hr.
      * inversion Hr; subst r. congruence.
      * erewrite IH; try eassumption.
        -- simpl. lia.
        -- intros s x Hs Hx. apply (Hfirst (S s) x); [lia | exact Hx].
Qed.

(* The loop reads at most [n] draws: generators that agree on them give the
   same final balance and the same records. *)
Lemma run_deterministic n : forall i b g1 g2,
  (forall k, (k < n)%nat -> draws g1 (consumed g1 + k) = draws g2 (consumed g2 + k)) ->
  fst (the_run n i b g1) = fst (the_run n i b g2).
Proof.
  induction n as [|n IH]; intros i b g1 g2 Hd.
  - reflexivity.
  - rewrite !run_S. cbv zeta.
    assert (E : next_draw g1 = next_draw g2).
    { unfold next_draw. generalize (Hd 0%nat (Nat.lt_0_succ n)).
      now rewrite !Nat.add_0_r. }
    rewrite E.
    destruct (is_ruinous (the_record i b (next_draw g2))); [reflexivity|].
    specialize (IH (i + 1) (balance (the_record i b (next_draw g2)))
                   (advance g1) (advance g2)).
    destruct (the_run n (i + 1) _ (advance g1)) as [[fb1 l1] h1].
    destruct (the_run n (i + 1) _ (advance g2)) as [[fb2 l2] h2].
    simpl in IH |- *.
    assert (E' : (fb1, l1) = (fb2, l2)); [apply IH | now inversion E'].
    intros k Hk. generalize (Hd (S k) ltac:(lia)).
    now rewrite !Nat.add_succ_r.
Qed.

End LoopFacts.

Section SimulatorFacts.

Context {num : Type} {N : JsNumber num}.
Local Open Scope Z_scope.

Variables startBalance riskPerTrade rrRatio : num.
Variable numTrades : Z.
Variable winRate : num.

Local Abbreviation riskDecimal := (riskPerTrade / num_of_Z 100)%js.
Local Abbreviation winRateDecimal := (winRate / num_of_Z 100)%js.
Local Abbreviation initial :=
  {| trade := 0; balance := startBalance; isWin := None |}.

Lemma simulateTrades_run g :
  simulateTrades startBalance riskPerTrade rrRatio numTrades winRate g
  = let '(fb, l, g') :=
      run riskDecimal rrRatio winRateDecimal numTrades
          (Z.to_nat numTrades) 1 startBalance g in
    ({| finalBalance := fb; tradeHistory := initial :: l |}, g').
Proof.
  unfold simulateTrades. rewrite trade_loop_run.
  destruct (run _ _ _ _ _ _ _ _) as [[fb l] g']. reflexivity.
Qed.

Lemma trip_count : Z.to_nat numTrades = Z.to_nat (numTrades + 1 - 1).
Proof. f_equal. lia. Qed.

(* The record of a trade made before any ruin. *)
Lemma surviving_trade_record (g : RandomState num) (t : nat) (r : TradeHistoryItem num) :
  let h := tradeHistory
             (fst (simulateTrades startBalance riskPerTrade rrRatio numTrades winRate g)) in
  survives_until h (S t) ->
  nth_error h (S t) = Some r ->
  exists prev, nth_error h t = Some prev /\
    r = record_of riskDecimal rrRatio winRateDecimal (Z.of_nat (S t)) (balance prev)
          (draws g (consumed g + t)).
Proof.
  intros h Hs Hr. subst h. rewrite simulateTrades_run in *.
  destruct (run _ _ _ _ _ _ _ _) as [[fb l] g'] eqn:Hrun.
  cbn [fst tradeHistory] in *.
  destruct (run_step _ _ _ _ _ _ _ _ _ _ _ initial t r Hrun eq_refl Hs Hr)
    as [prev [Hp E]].
  exists prev. split; [exact Hp|].
  rewrite E. f_equal. lia.
Qed.

End SimulatorFacts.

(** * Binary64: order facts read off the IEEE 754 specification *)

Section Binary64Order.

Lemma SFleb_trans a b c :
  SFleb a b = true -> SFleb b c = true -> SFleb a c = true.
Proof.
  unfold SFleb.
  destruct a as [sa|sa| |sa ma ea], b as [sb|sb| |sb mb eb], c as [sc|sc| |sc mc ec];
    try destruct sa; try destruct sb; try destruct sc; simpl;
    try reflexivity; try discriminate; try (intros; assumption).
  all: fold (Pos.compare ma mb); fold (Pos.compare mb mc); fold (Pos.compare ma mc).
  all: destruct (Z.compare_spec ea eb), (Z.compare_spec eb ec), (Z.compare_spec ea ec);
    try lia; try reflexivity; try discriminate; subst.
  all: destruct (Pos.compare_spec ma mb), (Pos.compare_spec mb mc), (Pos.compare_spec ma mc);
    simpl; try lia; try reflexivity; try discriminate.
Qed.

Lemma float_leb_trans (x y z : float) :
  (x <=? y)%float = true -> (y <=? z)%float = true -> (x <=? z)%float = true.
Proof. rewrite !FloatAxioms.leb_spec. apply SFleb_trans. Qed.

Lemma SFltb_not_leb a b : SFltb a b = true -> SFleb b a = false.
Proof.
  unfold SFltb, SFleb.
  destruct a as [sa|sa| |sa ma ea], b as [sb|sb| |sb mb eb];
    try destruct sa; try destruct sb; simpl;
    try reflexivity; try discriminate.
  all: fold (Pos.compare ma mb); fold (Pos.compare mb ma).
  all: rewrite (Z.compare_antisym ea eb), (Pos.compare_antisym ma mb).
  all: destruct (ea ?= eb)%Z; simpl; try reflexivity; try discriminate.
  all: destruct (ma ?= mb)%positive; simpl; try reflexivity; try discriminate.
Qed.

Lemma float_ltb_not_leb (x y : float) :
  (x <? y)%float = true -> (y <=? x)%float = false.
Proof. rewrite FloatAxioms.ltb_spec, FloatAxioms.leb_spec. apply SFltb_not_leb. Qed.

Lemma nan_mul_l (m : float) : (nan * m)%float = nan.
Proof.
  apply Prim2SF_inj. rewrite FloatAxioms.mul_spec.
  change (Prim2SF nan) with S754_nan. reflexivity.
Qed.

(* Numbers that [===] tells apart are different values. *)
Lemma float_eqb_false_neq (x y : float) :
  (x =? y)%float = false -> (y =? y)%float = true -> x <> y.
Proof. intros H1 H2 E. rewrite E in H1. congruence. Qed.

End Binary64Order.

(** * A NaN start balance *)

Section NaNStartBalance.

Local Open Scope float_scope.

Variables riskDecimal rrRatio winRateDecimal : float.
Variable numTrades : Z.

Lemma balance_after_nan (d : float) :
  balance_after riskDecimal rrRatio winRateDecimal nan d = nan.
Proof. unfold balance_after. destruct (win_of winRateDecimal d); apply nan_mul_l. Qed.

Lemma run_nan n : forall i g,
  fst (fst (run riskDecimal rrRatio winRateDecimal numTrades n i nan g)) = nan /\
  Forall (fun x => balance x = nan)
         (snd (fst (run riskDecimal rrRatio winRateDecimal numTrades n i nan g))) /\
  length (snd (fst (run riskDecimal rrRatio winRateDecimal numTrades n i nan g))) = n.
Proof.
  induction n as [|n IH]; intros i g.
  - repeat split. constructor.
  - rewrite run_S. cbv zeta. unfold is_ruinous, record_of. cbn [balance].
    rewrite balance_after_nan.
    change (nan <=? num_0_01)%js with false. cbv iota.
    destruct (IH (i + 1)%Z (advance g)) as [Hf [Hall Hlen]].
    destruct (run _ _ _ _ n _ _ _) as [[fb l] g']. cbn [fst snd] in *.
    repeat split; [exact Hf | constructor; [reflexivity | exact Hall] | ].
    simpl. now rewrite Hlen.
Qed.

End NaNStartBalance.

(** * Binary64: the sign of a result

    Rounding keeps the sign: a product, a quotient or a sum of numbers whose
    signs are known is not NaN (the cases 0 * Infinity, 0 / 0 and
    Infinity / Infinity apart) and has the sign arithmetic gives it. *)

Section Binary64Sign.

Local Open Scope Z_scope.

Lemma shr_1_nonneg mrs : 0 <= shr_m mrs -> 0 <= shr_m (shr_1 mrs).
Proof.
  destruct mrs as [m r s]. cbn [shr_m]. intros H.
  destruct m as [|[p|p|]|p]; cbn; lia.
Qed.

Lemma iter_shr_1_nonneg p : forall mrs,
  0 <= shr_m mrs -> 0 <= shr_m (SpecFloat.iter_pos shr_1 p mrs).
Proof.
  induction p as [p IH|p IH|]; intros mrs H; cbn [SpecFloat.iter_pos].
  - apply IH, IH, shr_1_nonneg, H.
  - apply IH, IH, H.
  - apply shr_1_nonneg, H.
Qed.

Lemma shr_fexp_nonneg prec emax m e l :
  0 <= m -> 0 <= shr_m (fst (shr_fexp prec emax m e l)).
Proof.
  intros H. unfold shr_fexp, shr.
  assert (H0 : 0 <= shr_m (shr_record_of_loc m l))
    by (destruct l as [|[]]; exact H).
  destruct (fexp prec emax (Zdigits2 m + e) - e) as [|p|p]; cbn [fst];
    [exact H0 | apply iter_shr_1_nonneg, H0 | exact H0].
Qed.

Lemma round_nearest_even_nonneg m l : 0 <= m -> 0 <= round_nearest_even m l.
Proof.
  intros H. destruct l as [|[]]; cbn [round_nearest_even]; try lia.
  destruct (Z.even m); lia.
Qed.

(* Rounding a magnitude that is not negative gives a number of the sign
   asked for, never NaN. *)
Lemma binary_round_aux_sign prec emax s m e l :
  0 <= m -> SFhas_sign s (binary_round_aux prec emax s m e l).
Proof.
  intros H. unfold binary_round_aux.
  pose proof (shr_fexp_nonneg prec emax m e l H) as H1.
  destruct (shr_fexp prec emax m e l) as [mrs' e']. cbn [fst] in H1.
  pose proof (shr_fexp_nonneg prec emax
                (round_nearest_even (shr_m mrs') (loc_of_shr_record mrs')) e' loc_Exact
                (round_nearest_even_nonneg _ _ H1)) as H2.
  destruct (shr_fexp prec emax _ e' loc_Exact) as [mrs'' e'']. cbn [fst] in H2.
  destruct (shr_m mrs'') as [|p|p]; [reflexivity | | lia].
  destruct (e'' <=? emax - prec); reflexivity.
Qed.

Lemma SFmul_sign prec emax sx sy x y :
  SFhas_sign sx x -> SFhas_sign sy y ->
  (forall s s', ~ (x = S754_zero s /\ y = S754_infinity s')) ->
  (forall s s', ~ (x = S754_infinity s /\ y = S754_zero s')) ->
  SFhas_sign (xorb sx sy) (SFmul prec emax x y).
Proof.
  intros Hx Hy H1 H2.
  destruct x as [s1|s1| |s1 m1 e1], y as [s2|s2| |s2 m2 e2]; cbn in Hx, Hy;
    try contradiction; subst; cbn [SFmul SFhas_sign]; try reflexivity.
  - destruct (H1 sx sy (conj eq_refl eq_refl)).
  - destruct (H2 sx sy (conj eq_refl eq_refl)).
  - apply binary_round_aux_sign. lia.
Qed.

Lemma SFdiv_core_nonneg prec emax m1 e1 m2 e2 :
  0 <= fst (fst (SFdiv_core_binary prec emax (Zpos m1) e1 (Zpos m2) e2)).
Proof.
  unfold SFdiv_core_binary. cbv zeta.
  set (s := e1 - e2 - _).
  set (m' := match s with Zpos _ => Z.shiftl (Zpos m1) s | Z0 => Zpos m1 | Zneg _ => 0 end).
  assert (Hm : 0 <= m').
  { unfold m'. destruct s; try lia. apply Z.shiftl_nonneg. lia. }
  pose proof (Z.div_pos m' (Zpos m2) Hm ltac:(lia)) as Hq.
  unfold Z.div in Hq.
  destruct (Z.div_eucl m' (Zpos m2)) as [q r]. exact Hq.
Qed.

Lemma SFdiv_sign prec emax sx sy x y :
  SFhas_sign sx x -> SFhas_sign sy y ->
  (forall s s', ~ (x = S754_zero s /\ y = S754_zero s')) ->
  (forall s s', ~ (x = S754_infinity s /\ y = S754_infinity s')) ->
  SFhas_sign (xorb sx sy) (SFdiv prec emax x y).
Proof.
  intros Hx Hy H1 H2.
  destruct x as [s1|s1| |s1 m1 e1], y as [s2|s2| |s2 m2 e2]; cbn in Hx, Hy;
    try contradiction; subst; cbn [SFdiv SFhas_sign]; try reflexivity.
  - destruct (H1 sx sy (conj eq_refl eq_refl)).
  - destruct (H2 sx sy (conj eq_refl eq_refl)).
  - pose proof (SFdiv_core_nonneg prec emax m1 e1 m2 e2) as H.
    destruct (SFdiv_core_binary prec emax (Zpos m1) e1 (Zpos m2) e2) as [[mz ez] lz].
    apply binary_round_aux_sign. exact H.
Qed.

Lemma binary_round_sign prec emax s m e :
  SFhas_sign s (binary_round prec emax s m e).
Proof.
  unfold binary_round. destruct (shl_align _ _ _) as [mz ez].
  apply binary_round_aux_sign. lia.
Qed.

(* The sum of two numbers of one sign has that sign. *)
Lemma SFadd_sign prec emax s x y :
  SFhas_sign s x -> SFhas_sign s y -> SFhas_sign s (SFadd prec emax x y).
Proof.
  intros Hx Hy.
  destruct x as [s1|s1| |s1 m1 e1], y as [s2|s2| |s2 m2 e2]; cbn in Hx, Hy;
    try contradiction; subst; cbn [SFadd SFhas_sign]; try reflexivity.
  - destruct s; reflexivity.
  - destruct s; reflexivity.
  - destruct s; cbn [cond_Zopp Z.opp Z.add binary_normalize]; apply binary_round_sign.
Qed.

End Binary64Sign.

Section Binary64SignFacts.

Local Open Scope float_scope.

Lemma one_SF : exists m e, Prim2SF 1 = S754_finite false m e.
Proof. eexists. eexists. vm_compute. reflexivity. Qed.

Lemma hundred_SF : exists m e, Prim2SF 100 = S754_finite false m e.
Proof. eexists. eexists. vm_compute. reflexivity. Qed.


Lemma float_ltb_leb (x y : float) : (x <? y) = true -> (x <=? y) = true.
Proof.
  rewrite FloatAxioms.ltb_spec, FloatAxioms.leb_spec. unfold SFltb, SFleb.
  destruct (SFcompare _ _) as [[| |]|]; try discriminate. reflexivity.
Qed.

Lemma float_leb_not_ltb (x y : float) : (x <=? y) = true -> (y <? x) = false.
Proof.
  intros H. destruct (y <? x) eqn:E; [|reflexivity].
  apply float_ltb_not_leb in E. congruence.
Qed.

(* A number above 0 is positive and finite, or plus infinity. *)
Lemma float_pos_sign (x : float) :
  (0 <? x) = true ->
  SFhas_sign false (Prim2SF x) /\ forall s, Prim2SF x <> S754_zero s.
Proof.
  rewrite FloatAxioms.ltb_spec. change (Prim2SF 0) with (S754_zero false).
  destruct (Prim2SF x) as [s|s| |s m e]; unfold SFltb; cbn; try discriminate;
    destruct s; try discriminate; intros _; split; try reflexivity; discriminate.
Qed.

Lemma float_nonneg_sign (x : float) :
  (0 <=? x) = true ->
  SFhas_sign false (Prim2SF x) \/ exists s, Prim2SF x = S754_zero s.
Proof.
  rewrite FloatAxioms.leb_spec. change (Prim2SF 0) with (S754_zero false).
  destruct (Prim2SF x) as [s|s| |s m e]; unfold SFleb; cbn; try discriminate.
  - intros _. right. exists s. reflexivity.
  - destruct s; try discriminate. intros _. left. reflexivity.
  - destruct s; try discriminate. intros _. left. reflexivity.
Qed.

Lemma float_sign_nonneg (x : float) :
  SFhas_sign false (Prim2SF x) -> (0 <=? x) = true.
Proof.
  rewrite FloatAxioms.leb_spec. change (Prim2SF 0) with (S754_zero false).
  destruct (Prim2SF x) as [s|s| |s m e]; cbn; try contradiction;
    intros E; subst s; reflexivity.
Qed.

Lemma float_sign_nonpos (x : float) :
  SFhas_sign true (Prim2SF x) -> (x <=? 0) = true.
Proof.
  rewrite FloatAxioms.leb_spec. change (Prim2SF 0) with (S754_zero false).
  destruct (Prim2SF x) as [s|s| |s m e]; cbn; try contradiction;
    intros E; subst s; reflexivity.
Qed.



Lemma float_leb_infinity (x : float) :
  (0 <=? x) = true -> (x <=? infinity) = true.
Proof.
  rewrite !FloatAxioms.leb_spec.
  change (Prim2SF 0) with (S754_zero false).
  change (Prim2SF infinity) with (S754_infinity false).
  destruct (Prim2SF x) as [s|s| |s mx ex]; unfold SFleb; cbn;
    try discriminate; destruct s; try discriminate; reflexivity.
Qed.

(* A counter that is at least 0 stays so when 1 is added. *)
Lemma float_succ_nonneg (x : float) :
  (0 <=? x) = true -> (0 <=? x + 1) = true.
Proof.
  intros H. apply float_sign_nonneg. rewrite FloatAxioms.add_spec. unfold SF64add.
  destruct one_SF as [m [e E]]. rewrite E.
  destruct (float_nonneg_sign x H) as [Hs|[s Hz]].
  - apply SFadd_sign; [exact Hs | reflexivity].
  - rewrite Hz. reflexivity.
Qed.

(* A number at or below 0 divided by 100 is at or below 0. *)
Lemma float_percent_nonpos (x : float) :
  (x <=? 0) = true -> (x / 100 <=? 0) = true.
Proof.
  intros H. destruct hundred_SF as [m [e E]].
  assert (Hx : SFhas_sign true (Prim2SF x) \/ exists s, Prim2SF x = S754_zero s).
  { rewrite FloatAxioms.leb_spec in H. change (Prim2SF 0) with (S754_zero false) in H.
    destruct (Prim2SF x) as [s|s| |s mx ex]; unfold SFleb in H; cbn in H;
      try discriminate.
    - right. exists s. reflexivity.
    - destruct s; try discriminate. left. reflexivity.
    - destruct s; try discriminate. left. reflexivity. }
  destruct Hx as [Hs|[s Hz]].
  - apply float_sign_nonpos. rewrite FloatAxioms.div_spec, E. unfold SF64div.
    change true with (xorb true false).
    apply SFdiv_sign; [exact Hs | reflexivity | |]; intros s s' [_ F]; discriminate F.
  - rewrite FloatAxioms.leb_spec, FloatAxioms.div_spec, E, Hz.
    change (Prim2SF 0) with (S754_zero false). destruct s; reflexivity.
Qed.

End Binary64SignFacts.

(** * Binary64: the sign of the balances *)

Section Binary64Balances.

Local Open Scope float_scope.

Variables riskDecimal rrRatio winRateDecimal : float.
Variable numTrades : Z.
Hypothesis win_multiplier : (0 <? 1 + riskDecimal * rrRatio) = true.
Hypothesis loss_multiplier : (0 <? 1 - riskDecimal) = true.




End Binary64Balances.

(** * The loops with the count as a number *)

Section NumberCountLoops.

Local Open Scope float_scope.

Variables riskDecimal rrRatio winRateDecimal : float.

Lemma for_padding_infinity fuel : forall j h,
  (0 <=? j) = true -> NumberCount.for_padding infinity fuel j h = None.
Proof.
  induction fuel as [|fuel IH]; intros j h Hj; [reflexivity|].
  cbn [NumberCount.for_padding]. rewrite (float_leb_infinity j Hj).
  apply IH. apply float_succ_nonneg. exact Hj.
Qed.

Lemma for_trades_infinity fuel : forall i b h g,
  (0 <=? i) = true ->
  NumberCount.for_trades riskDecimal rrRatio winRateDecimal infinity fuel i b h g = None.
Proof.
  induction fuel as [|fuel IH]; intros i b h g Hi; [reflexivity|].
  cbn [NumberCount.for_trades]. rewrite (float_leb_infinity i Hi).
  cbv zeta. cbn [Math_random].
  destruct (_ <=? 0.01).
  - rewrite for_padding_infinity by (apply float_succ_nonneg; exact Hi). reflexivity.
  - apply IH. apply float_succ_nonneg. exact Hi.
Qed.

End NumberCountLoops.

(** * The outcome table, row by row *)

Lemma outcome_table_unfold {num : Type} {N : JsNumber num}
    (pow : num -> Z -> num) (sb risk rr : num) (n : Z) :
  calculateWinRateOutcomes pow sb risk rr n
  = map (outcome_row pow sb risk rr n) [10; 20; 30; 40; 50; 60; 70; 80; 90]%Z.
Proof. reflexivity. Qed.

(** * The claims *)

Local Open Scope float_scope.

(** ** C1: ruin *)

(** C1 as stated fails: in a run within the limits of the form (balance 10,
    risk 45%, thirteen trades, twelve losses in a row) the twelfth trade
    leaves about 0.0077, which is at most 0.01, and the record of that trade
    carries this positive balance, not 0. *)
Lemma ruin_record_keeps_its_balance :
  let h := tradeHistory (fst (simulateTrades 10 45 4 13 50 losing_streak)) in
  exists prev r,
    nth_error h 11 = Some prev /\ nth_error h 12 = Some r /\
    balance r = balance prev * (1 - 45 / 100) /\
    (balance r <=? 0.01) = true /\
    (0 <? balance r) = true /\ (balance r =? 0) = false.
Proof. do 2 eexists. repeat split; vm_compute; reflexivity. Qed.

(** C1 (amended).  Let trade [S t] be the first whose resulting balance is at
    or below 0.01.  Its record carries that resulting balance itself, the
    previous balance times the multiplier its draw selects (the record is not
    reset to 0); every later record up to [numTrades] carries balance 0 and
    outcome loss; the returned final balance is 0; and exactly [S t] draws
    were consumed, none after the ruin. *)
Theorem ruin_is_absorbing {num : Type} {N : JsNumber num}
    (startBalance riskPerTrade rrRatio : num) (numTrades : Z) (winRate : num)
    (g : RandomState num) (t : nat) :
  let out := simulateTrades startBalance riskPerTrade rrRatio numTrades winRate g in
  let h := tradeHistory (fst out) in
  ruin_trade h (S t) ->
  (exists prev, nth_error h t = Some prev /\
     nth_error h (S t)
     = Some (record_of (riskPerTrade / num_of_Z 100)%js rrRatio
               (winRate / num_of_Z 100)%js (Z.of_nat (S t))
               (balance prev) (draws g (consumed g + t)))) /\
  (forall j, (S t < j <= Z.to_nat numTrades)%nat ->
     nth_error h j
     = Some {| trade := Z.of_nat j; balance := num_of_Z 0; isWin := Some false |}) /\
  finalBalance (fst out) = num_of_Z 0 /\
  consumed (snd out) = (consumed g + S t)%nat /\
  draws (snd out) = draws g.
Proof.
  intros out h [_ [Hs [r [Hr Hruin]]]].
  destruct (surviving_trade_record startBalance riskPerTrade rrRatio numTrades
              winRate g t r Hs Hr) as [prev [Hp E]].
  subst out h. rewrite simulateTrades_run in *.
  destruct (run _ _ _ _ _ _ _ _) as [[fb l] g'] eqn:Hrun.
  cbn [fst snd tradeHistory finalBalance] in *.
  pose proof (run_length _ _ _ _ _ _ _ _ _ _ _ Hrun (trip_count numTrades)) as Hlen.
  cbn [nth_error] in Hr.
  repeat split.
  - exists prev. split; [exact Hp|]. cbn [nth_error]. now rewrite Hr, E.
  - intros j Hj. destruct j as [|j]; [lia|]. cbn [nth_error].
    destruct (nth_error l j) as [x|] eqn:Hx.
    + rewrite (run_pad _ _ _ _ _ _ _ _ _ _ _ t r j x Hrun Hr Hruin ltac:(lia) Hx).
      unfold ruined_record. do 2 f_equal. lia.
    + apply nth_error_None in Hx. lia.
  - exact (run_final_ruin _ _ _ _ _ _ _ _ _ _ _ t r Hrun Hr Hruin).
  - apply (run_consumed_ruin _ _ _ _ _ _ _ _ _ _ _ t r Hrun Hr Hruin).
    intros s x Hlt Hx. apply (Hs (S s) x); [lia | exact Hx].
  - exact (run_draws _ _ _ _ _ _ _ _ _ _ _ Hrun).
Qed.

(** C1 (amended), at a run ruined by its first trade. *)
Lemma ruin_is_absorbing_witness :
  let g := draws_of_list [] 0.999 in
  let out := simulateTrades 100 100 4 2 50 g in
  let h := tradeHistory (fst out) in
  ruin_trade h 1 /\
  nth_error h 2 = Some {| trade := 2; balance := 0; isWin := Some false |} /\
  finalBalance (fst out) = 0 /\
  consumed (snd out) = 1%nat.
Proof.
  intros g out h.
  assert (Hruin : ruin_trade h 1).
  { split; [lia|]. split.
    - intros s x Hs. lia.
    - eexists. split; reflexivity. }
  split; [exact Hruin|].
  destruct (ruin_is_absorbing 100 100 4 2 50 g 0 Hruin) as [_ [Hpad [Hfin [Hcons _]]]].
  split; [|split].
  - apply (Hpad 2%nat). simpl. lia.
  - exact Hfin.
  - exact Hcons.
Defined.

(** ** C2: the step of a trade *)

(** C2 as stated fails for trades after the ruin: in the run above the
    thirteenth number of the generator is below the win rate, yet trade 13 is
    recorded as a loss with balance 0. *)
Lemma padded_trade_ignores_its_draw :
  let g := losing_streak in
  let h := tradeHistory (fst (simulateTrades 10 45 4 13 50 g)) in
  (0 <? 10) = true /\
  (draws g 12 <? 50 / 100) = true /\
  nth_error h 13 = Some {| trade := 13; balance := 0; isWin := Some false |}.
Proof. repeat split. Qed.

(** C2 (amended).  Every trade made while no earlier trade left a balance at
    or below 0.01 is a win iff its draw, the next number of the generator, is
    below [winRate / 100]; a win multiplies the previous balance by
    [1 + (riskPerTrade / 100) * rrRatio], a loss by [1 - riskPerTrade / 100].
    For start balance 100, risk 10, ratio 4 and one trade, in binary64 a draw
    of 0.0 that wins gives [{0,100,none},{1,140,win}] and a draw of 0.999
    that loses gives [{0,100,none},{1,90,loss}]; in exact arithmetic the draw
    0 wins for every win rate above 0 and the draw 0.999 loses for every win
    rate below 99.9, with the same balances. *)
Theorem trade_step_rule :
  (forall (num : Type) (N : JsNumber num)
          (startBalance riskPerTrade rrRatio : num) (numTrades : Z) (winRate : num)
          (g : RandomState num) (t : nat) (r : TradeHistoryItem num),
     let h := tradeHistory
                (fst (simulateTrades startBalance riskPerTrade rrRatio numTrades winRate g)) in
     let d := draws g (consumed g + t) in
     survives_until h (S t) ->
     nth_error h (S t) = Some r ->
     exists prev, nth_error h t = Some prev /\
       trade r = Z.of_nat (S t) /\
       isWin r = Some (d <? winRate / num_of_Z 100)%js /\
       balance r
       = if (d <? winRate / num_of_Z 100)%js
         then (balance prev * (num_of_Z 1 + (riskPerTrade / num_of_Z 100) * rrRatio))%js
         else (balance prev * (num_of_Z 1 - riskPerTrade / num_of_Z 100))%js) /\
  (forall (winRate : float) (g : RandomState float),
     draws g (consumed g) = 0 ->
     (0 <? winRate / 100) = true ->
     tradeHistory (fst (simulateTrades 100 10 4 1 winRate g))
     = [ {| trade := 0; balance := 100; isWin := None |};
         {| trade := 1; balance := 140; isWin := Some true |} ]) /\
  (forall (winRate : float) (g : RandomState float),
     draws g (consumed g) = 0.999 ->
     (0.999 <? winRate / 100) = false ->
     tradeHistory (fst (simulateTrades 100 10 4 1 winRate g))
     = [ {| trade := 0; balance := 100; isWin := None |};
         {| trade := 1; balance := 90; isWin := Some false |} ]) /\
  (forall (winRate : Q) (g : RandomState Q),
     draws g (consumed g) = 0%Q ->
     (0 < winRate)%Q ->
     let h := tradeHistory (fst (simulateTrades 100%Q 10%Q 4%Q 1 winRate g)) in
     map (@trade Q) h = [0; 1]%Z /\
     map (@isWin Q) h = [None; Some true] /\
     Forall2 Qeq (map (@balance Q) h) [100%Q; 140%Q]) /\
  (forall (winRate : Q) (g : RandomState Q),
     draws g (consumed g) = (999 # 1000)%Q ->
     (winRate < 999 # 10)%Q ->
     let h := tradeHistory (fst (simulateTrades 100%Q 10%Q 4%Q 1 winRate g)) in
     map (@trade Q) h = [0; 1]%Z /\
     map (@isWin Q) h = [None; Some false] /\
     Forall2 Qeq (map (@balance Q) h) [100%Q; 90%Q]).
Proof.
  split; [|split; [|split; [|split]]].
  - intros num N sb risk rr nT wr g t r h d Hs Hr.
    destruct (surviving_trade_record sb risk rr nT wr g t r Hs Hr) as [prev [Hp E]].
    exists prev. subst r. repeat split. exact Hp.
  - intros wr g Hd Hw.
    assert (H : win_of (wr / num_of_Z 100)%js (next_draw g) = true).
    { unfold win_of, next_draw. rewrite Hd. exact Hw. }
    rewrite simulateTrades_run. change (Z.to_nat 1) with 1%nat.
    rewrite run_S. cbv zeta. unfold record_of, balance_after. rewrite H.
    reflexivity.
  - intros wr g Hd Hw.
    assert (H : win_of (wr / num_of_Z 100)%js (next_draw g) = false).
    { unfold win_of, next_draw. rewrite Hd. exact Hw. }
    rewrite simulateTrades_run. change (Z.to_nat 1) with 1%nat.
    rewrite run_S. cbv zeta. unfold record_of, balance_after. rewrite H.
    reflexivity.
  - intros wr g Hd Hw h. subst h.
    assert (H : win_of (wr / num_of_Z 100)%js (next_draw g) = true).
    { unfold win_of, next_draw. rewrite Hd.
      cbn [num_ltb num_div num_of_Z Exact]. unfold Qltb.
      destruct (Qle_bool (wr / inject_Z 100) 0) eqn:E; [|reflexivity].
      apply Qle_bool_iff in E. change (inject_Z 100) with 100%Q in E.
      assert (0 < wr / 100)%Q by (apply Qlt_shift_div_l; lra). lra. }
    rewrite simulateTrades_run. change (Z.to_nat 1) with 1%nat.
    rewrite run_S. cbv zeta. unfold record_of, balance_after. rewrite H.
    repeat split. repeat constructor; reflexivity.
  - intros wr g Hd Hw h. subst h.
    assert (H : win_of (wr / num_of_Z 100)%js (next_draw g) = false).
    { unfold win_of, next_draw. rewrite Hd.
      cbn [num_ltb num_div num_of_Z Exact]. unfold Qltb.
      destruct (Qle_bool (wr / inject_Z 100) (999 # 1000)) eqn:E; [reflexivity|].
      assert (F : (wr / inject_Z 100 <= 999 # 1000)%Q).
      { change (inject_Z 100) with 100%Q. apply Qle_shift_div_r; lra. }
      apply Qle_bool_iff in F. congruence. }
    rewrite simulateTrades_run. change (Z.to_nat 1) with 1%nat.
    rewrite run_S. cbv zeta. unfold record_of, balance_after. rewrite H.
    repeat split. repeat constructor; reflexivity.
Qed.

(** C2 (amended), at the two scenarios with win rate 50, at the first trade
    of the losing run, and at the exact scenario with win rate 50. *)
Lemma trade_step_rule_witness :
  tradeHistory (fst (simulateTrades 100 10 4 1 50 (draws_of_list [] 0)))
  = [ {| trade := 0; balance := 100; isWin := None |};
      {| trade := 1; balance := 140; isWin := Some true |} ] /\
  tradeHistory (fst (simulateTrades 100 10 4 1 50 (draws_of_list [] 0.999)))
  = [ {| trade := 0; balance := 100; isWin := None |};
      {| trade := 1; balance := 90; isWin := Some false |} ] /\
  (let h := tradeHistory (fst (simulateTrades 10 45 4 13 50 losing_streak)) in
   exists prev r,
     nth_error h 0 = Some prev /\ nth_error h 1 = Some r /\
     trade r = 1%Z /\ isWin r = Some false /\
     balance r = balance prev * (1 - 45 / 100)) /\
  map (@isWin Q)
      (tradeHistory (fst (simulateTrades 100%Q 10%Q 4%Q 1 50%Q exact_win_then_losses)))
  = [None; Some true].
Proof.
  destruct trade_step_rule as [Hstep [Hwin [Hloss [Qwin _]]]].
  split; [|split; [|split]].
  - apply Hwin; reflexivity.
  - apply Hloss; reflexivity.
  - intros h.
    destruct (nth_error h 1) as [r|] eqn:Hr; [|discriminate Hr].
    destruct (Hstep float Binary64 10 45 4 13%Z 50 losing_streak 0%nat r)
      as [prev [Hp [Ht [Hw Hb]]]].
    + intros s x Hs. lia.
    + exact Hr.
    + exists prev, r. repeat split; [exact Hp | exact Ht | exact Hw | exact Hb].
  - apply (Qwin 50%Q exact_win_then_losses); reflexivity.
Defined.

(** ** C3: where the randomness comes from *)

(** C3 as stated fails: the simulator has five number arguments and reads
    [Math.random]; called twice with the same arguments, the second call
    continues where the first left the generator and returns another
    trajectory. *)
Lemma randomness_is_ambient :
  let g0 := draws_of_list [0] 0.999 in
  let first_call := simulateTrades 100 10 4 1 50 g0 in
  let second_call := simulateTrades 100 10 4 1 50 (snd first_call) in
  tradeHistory (fst first_call)
  = [ {| trade := 0; balance := 100; isWin := None |};
      {| trade := 1; balance := 140; isWin := Some true |} ] /\
  tradeHistory (fst second_call)
  = [ {| trade := 0; balance := 100; isWin := None |};
      {| trade := 1; balance := 90; isWin := Some false |} ] /\
  tradeHistory (fst first_call) <> tradeHistory (fst second_call).
Proof.
  split; [reflexivity|]. split; [reflexivity|].
  vm_compute. intros H. discriminate H.
Qed.

(** C3 (amended).  The simulator reads its randomness from the ambient
    generator.  Two runs with identical parameters whose generators deliver
    the same first [numTrades] draws return the same final balance and the
    same trajectory. *)
Theorem same_draws_same_trajectory {num : Type} {N : JsNumber num}
    (startBalance riskPerTrade rrRatio : num) (numTrades : Z) (winRate : num)
    (g1 g2 : RandomState num) :
  (forall k, (k < Z.to_nat numTrades)%nat ->
     draws g1 (consumed g1 + k) = draws g2 (consumed g2 + k)) ->
  fst (simulateTrades startBalance riskPerTrade rrRatio numTrades winRate g1)
  = fst (simulateTrades startBalance riskPerTrade rrRatio numTrades winRate g2).
Proof.
  intros Hd. rewrite !simulateTrades_run.
  pose proof (run_deterministic (riskPerTrade / num_of_Z 100)%js rrRatio
                (winRate / num_of_Z 100)%js numTrades
                (Z.to_nat numTrades) 1%Z startBalance g1 g2 Hd) as E.
  destruct (run _ _ _ _ _ _ _ g1) as [[fb1 l1] h1].
  destruct (run _ _ _ _ _ _ _ g2) as [[fb2 l2] h2].
  simpl in E. inversion E. reflexivity.
Qed.

(** C3 (amended), at two generators that agree on the only draw read. *)
Lemma same_draws_same_trajectory_witness :
  fst (simulateTrades 100 10 4 1 50 (draws_of_list [0] 0.999))
  = fst (simulateTrades 100 10 4 1 50 (draws_of_list [0] 0.5)).
Proof.
  apply same_draws_same_trajectory.
  intros k Hk. change (Z.to_nat 1) with 1%nat in Hk.
  destruct k as [|k]; [reflexivity | lia].
Defined.

(** ** C4: inputs outside the declared domain *)

(** C4 as stated fails: a NaN start balance, a start balance of 0, a draw of
    1.5 and a trade count of 2.5 are outside the declared domain, and each
    call returns a value: NaN balances, a ruin at the first trade, a draw
    counted as a loss, and a run of two trades. *)
Lemma invalid_input_is_not_rejected :
  (declaredDomain nan 10 4 2 50 = false /\
   exists out,
     NumberCount.simulateTrades 3 nan 10 4 2 50 (draws_of_list [0] 0.999) = Some out /\
     map (fun x => is_nan (NumberCount.balance x)) (NumberCount.tradeHistory (fst out))
     = [true; true; true] /\
     is_nan (NumberCount.finalBalance (fst out)) = true) /\
  (declaredDomain 0 10 4 1 50 = false /\
   exists out,
     NumberCount.simulateTrades 2 0 10 4 1 50 (draws_of_list [] 0.999) = Some out /\
     NumberCount.tradeHistory (fst out)
     = [ {| NumberCount.trade := 0; NumberCount.balance := 0;
            NumberCount.isWin := None |};
         {| NumberCount.trade := 1; NumberCount.balance := 0;
            NumberCount.isWin := Some false |} ]) /\
  (declaredDraw 1.5 = false /\
   exists out,
     NumberCount.simulateTrades 2 100 10 4 1 50 (draws_of_list [] 1.5) = Some out /\
     NumberCount.tradeHistory (fst out)
     = [ {| NumberCount.trade := 0; NumberCount.balance := 100;
            NumberCount.isWin := None |};
         {| NumberCount.trade := 1; NumberCount.balance := 90;
            NumberCount.isWin := Some false |} ]) /\
  (exists out,
     NumberCount.simulateTrades 3 100 10 4 2.5 50 (draws_of_list [] 0.999) = Some out /\
     NumberCount.tradeHistory (fst out)
     = [ {| NumberCount.trade := 0; NumberCount.balance := 100;
            NumberCount.isWin := None |};
         {| NumberCount.trade := 1; NumberCount.balance := 90;
            NumberCount.isWin := Some false |};
         {| NumberCount.trade := 2; NumberCount.balance := 81;
            NumberCount.isWin := Some false |} ]).
Proof.
  split; [|split; [|split]].
  - split; [reflexivity|]. eexists. split; [reflexivity|]. split; reflexivity.
  - split; [reflexivity|]. eexists. split; reflexivity.
  - split; [reflexivity|]. eexists. split; reflexivity.
  - eexists. split; reflexivity.
Qed.

(** C4 (amended).  The core functions test no precondition and contain no
    [throw]: what an input outside the declared domain does is decided by
    the arithmetic alone, and no error is signalled.
    - A NaN trade count: the loop is not entered, the call returns the
      initial record and the start balance, and no draw is read.
    - An infinite trade count: the loop does not end, whatever the other
      arguments and the draws; no fuel suffices for a result.
    - A NaN start balance, with an integer trade count: the call returns its
      [numTrades + 1] records, all with balance NaN, and a NaN final
      balance; the outcome table has its nine rows, all with balance NaN,
      whatever [Math.pow] returns.
    - A draw, whatever its value: the first trade is recorded with the
      outcome and the balance the comparison of that draw with
      [winRate / 100] gives. *)
Theorem invalid_inputs_run_through :
  (forall (sb risk rr wr : float) (g : RandomState float) (fuel : nat),
     NumberCount.simulateTrades (S fuel) sb risk rr nan wr g
     = Some ({| NumberCount.finalBalance := sb;
                NumberCount.tradeHistory :=
                  [{| NumberCount.trade := 0; NumberCount.balance := sb;
                      NumberCount.isWin := None |}] |}, g)) /\
  (forall (sb risk rr wr : float) (g : RandomState float) (fuel : nat),
     NumberCount.simulateTrades fuel sb risk rr infinity wr g = None) /\
  (forall (risk rr : float) (n : Z) (wr : float) (g : RandomState float),
     let out := fst (simulateTrades nan risk rr n wr g) in
     finalBalance out = nan /\
     Forall (fun x => balance x = nan) (tradeHistory out) /\
     length (tradeHistory out) = S (Z.to_nat n)) /\
  (forall (pow : float -> Z -> float) (risk rr : float) (n : Z),
     Forall (fun row => WinRateOutcome.finalBalance row = nan)
            (calculateWinRateOutcomes pow nan risk rr n) /\
     length (calculateWinRateOutcomes pow nan risk rr n) = 9%nat) /\
  (forall (sb risk rr : float) (n : Z) (wr : float) (g : RandomState float),
     (1 <= n)%Z ->
     nth_error (tradeHistory (fst (simulateTrades sb risk rr n wr g))) 1
     = Some {| trade := 1;
               balance := if draws g (consumed g) <? wr / 100
                          then sb * (1 + risk / 100 * rr)
                          else sb * (1 - risk / 100);
               isWin := Some (draws g (consumed g) <? wr / 100) |}).
Proof.
  split; [|split; [|split; [|split]]].
  - intros sb risk rr wr g fuel. reflexivity.
  - intros sb risk rr wr g fuel. unfold NumberCount.simulateTrades. cbv zeta.
    rewrite for_trades_infinity by reflexivity. reflexivity.
  - intros risk rr n wr g out. subst out. rewrite simulateTrades_run.
    destruct (run_nan (risk / num_of_Z 100)%js rr (wr / num_of_Z 100)%js n
                (Z.to_nat n) 1%Z g) as [Hf [Hall Hlen]].
    destruct (run _ _ _ _ _ _ _ _) as [[fb l] g']. cbn [fst snd] in *.
    cbn [finalBalance tradeHistory].
    repeat split; [exact Hf | constructor; [reflexivity | exact Hall] | ].
    simpl. now rewrite Hlen.
  - intros pow risk rr n. rewrite outcome_table_unfold. split; [|reflexivity].
    repeat constructor; cbn [WinRateOutcome.finalBalance outcome_row];
      apply nan_mul_l.
  - intros sb risk rr n wr g Hn.
    destruct (nth_error (tradeHistory (fst (simulateTrades sb risk rr n wr g))) 1)
      as [r|] eqn:Hr.
    + destruct (surviving_trade_record sb risk rr n wr g 0 r) as [prev [Hp E]].
      * intros s x Hs. lia.
      * exact Hr.
      * rewrite simulateTrades_run in Hp.
        destruct (run _ _ _ _ _ _ _ _) as [[fb l] g'].
        cbn [fst tradeHistory nth_error] in Hp. inversion Hp; subst prev.
        rewrite E. cbn [balance]. rewrite Nat.add_0_r. reflexivity.
    + exfalso. rewrite simulateTrades_run in Hr.
      destruct (run _ _ _ _ _ _ _ _) as [[fb l] g'] eqn:Hrun.
      pose proof (run_length _ _ _ _ _ _ _ _ _ _ _ Hrun (trip_count n)) as Hlen.
      cbn [fst tradeHistory nth_error] in Hr.
      destruct l as [|x l]; [simpl in Hlen; lia | discriminate Hr].
Qed.

(** C4 (amended), at a draw of 1.5: the trade is recorded as a loss. *)
Lemma invalid_inputs_run_through_witness :
  nth_error (tradeHistory (fst (simulateTrades 100 10 4 1 50 (draws_of_list [] 1.5)))) 1
  = Some {| trade := 1; balance := 90; isWin := Some false |}.
Proof.
  destruct invalid_inputs_run_through as [_ [_ [_ [_ H]]]].
  apply (H 100 10 4 1%Z 50 (draws_of_list [] 1.5)). lia.
Defined.

(** ** C5: the break-even flags *)

(* Once a flag is true, the flags at larger win rates are true. *)
Ltac later_flags_true E :=
  repeat match goal with
  | |- context [PrimFloat.leb ?x ?w] =>
      lazymatch type of E with
      | PrimFloat.leb x ?a = true =>
          let H := fresh in
          assert (H : PrimFloat.leb x w = true)
            by (apply (float_leb_trans x a w E); reflexivity);
          rewrite H; clear H
      end
  end.

(** C5.  Each row's flag is [winRate >= calculateBreakEvenRate rrRatio].  In
    binary64 the flags never go from true back to false as the win rate
    grows: they are some number of false flags followed by true flags only,
    so there is at most one change, from false to true; and for ratio 4,
    whose break-even rate is 20, the 10% row is false and every row from 20%
    on is true. *)
Theorem break_even_flags_monotone :
  (forall (num : Type) (N : JsNumber num) (pow : num -> Z -> num)
          (sb risk rr : num) (n : Z),
     Forall (fun row =>
               WinRateOutcome.isBreakEven row
               = (num_of_Z (WinRateOutcome.winRate row) >=? calculateBreakEvenRate rr)%js)
            (calculateWinRateOutcomes pow sb risk rr n)) /\
  (forall (pow : float -> Z -> float) (sb risk rr : float) (n : Z)
          (i j : nat) (ri rj : WinRateOutcome.t float),
     let table := calculateWinRateOutcomes pow sb risk rr n in
     (i <= j)%nat ->
     nth_error table i = Some ri -> nth_error table j = Some rj ->
     WinRateOutcome.isBreakEven ri = true -> WinRateOutcome.isBreakEven rj = true) /\
  (forall (pow : float -> Z -> float) (sb risk rr : float) (n : Z),
     exists k, (k <= 9)%nat /\
       map (@WinRateOutcome.isBreakEven float) (calculateWinRateOutcomes pow sb risk rr n)
       = repeat false k ++ repeat true (9 - k)) /\
  (forall (pow : float -> Z -> float) (sb risk : float) (n : Z),
     map (fun row => (WinRateOutcome.winRate row, WinRateOutcome.isBreakEven row))
         (calculateWinRateOutcomes pow sb risk 4 n)
     = [(10, false); (20, true); (30, true); (40, true); (50, true);
        (60, true); (70, true); (80, true); (90, true)]%Z) /\
  calculateBreakEvenRate 4 = 20.
Proof.
  split; [|split; [|split; [|split]]].
  - intros num N pow sb risk rr n. rewrite outcome_table_unfold.
    repeat constructor.
  - intros pow sb risk rr n i j ri rj table Hij Hi Hj Hflag. subst table.
    rewrite outcome_table_unfold in Hi, Hj.
    do 9 (destruct i as [|i];
          [ do 9 (destruct j as [|j];
                  [ try lia; cbn in Hi, Hj; inversion Hi; inversion Hj; subst;
                    cbn [WinRateOutcome.isBreakEven] in Hflag |- *;
                    first [ exact Hflag
                          | eapply float_leb_trans; [exact Hflag | reflexivity] ]
                  | ]);
            destruct j; discriminate Hj
          | ]).
    destruct i; discriminate Hi.
  - intros pow sb risk rr n. rewrite outcome_table_unfold.
    cbn [map WinRateOutcome.isBreakEven outcome_row num_leb num_of_Z Binary64].
    set (be := calculateBreakEvenRate rr).
    change (float_of_Z 10) with 10. change (float_of_Z 20) with 20.
    change (float_of_Z 30) with 30. change (float_of_Z 40) with 40.
    change (float_of_Z 50) with 50. change (float_of_Z 60) with 60.
    change (float_of_Z 70) with 70. change (float_of_Z 80) with 80.
    change (float_of_Z 90) with 90.
    destruct (be <=? 10) eqn:E1; [exists 0%nat; later_flags_true E1; split; [lia|reflexivity]|].
    destruct (be <=? 20) eqn:E2; [exists 1%nat; later_flags_true E2; split; [lia|reflexivity]|].
    destruct (be <=? 30) eqn:E3; [exists 2%nat; later_flags_true E3; split; [lia|reflexivity]|].
    destruct (be <=? 40) eqn:E4; [exists 3%nat; later_flags_true E4; split; [lia|reflexivity]|].
    destruct (be <=? 50) eqn:E5; [exists 4%nat; later_flags_true E5; split; [lia|reflexivity]|].
    destruct (be <=? 60) eqn:E6; [exists 5%nat; later_flags_true E6; split; [lia|reflexivity]|].
    destruct (be <=? 70) eqn:E7; [exists 6%nat; later_flags_true E7; split; [lia|reflexivity]|].
    destruct (be <=? 80) eqn:E8; [exists 7%nat; later_flags_true E8; split; [lia|reflexivity]|].
    destruct (be <=? 90) eqn:E9; [exists 8%nat; split; [lia|reflexivity]|].
    exists 9%nat. split; [lia|reflexivity].
  - intros pow sb risk n. reflexivity.
  - reflexivity.
Qed.

(** C5, at ratio 4 and the rows of 20% and 30%. *)
Lemma break_even_flags_monotone_witness :
  let table := calculateWinRateOutcomes pow_by_multiplication 100 10 4 1 in
  exists ri rj, nth_error table 1 = Some ri /\ nth_error table 2 = Some rj /\
    WinRateOutcome.isBreakEven ri = true /\ WinRateOutcome.isBreakEven rj = true.
Proof.
  intros table. do 2 eexists.
  split; [reflexivity|]. split; [reflexivity|]. split; [reflexivity|].
  eapply (proj1 (proj2 break_even_flags_monotone)
            pow_by_multiplication 100 10 4 1%Z 1%nat 2%nat);
    [ lia | reflexivity | reflexivity | reflexivity ].
Defined.

(** ** C6: the outcome table *)

(** C6 as stated fails in the last place: for start balance 100, risk 10,
    ratio 4 and one trade, binary64 gives the 50% row the balance
    114.99999999999999, the number just below 115. *)
Lemma projected_balance_below_115 :
  exists row,
    nth_error (calculateWinRateOutcomes pow_by_multiplication 100 10 4 1) 4 = Some row /\
    WinRateOutcome.winRate row = 50%Z /\
    (WinRateOutcome.finalBalance row =? 115) = false /\
    WinRateOutcome.finalBalance row = next_down 115.
Proof. eexists. repeat split. Qed.

(** C6 (amended).  The projector returns exactly 9 rows with win rates 10,
    20, ..., 90 in this order, and each row's balance is the start balance
    times the average multiplier raised to the trade count, computed with the
    operations in the order written.  For start balance 100, risk 10, ratio 4
    and one trade the 50% row is 114.99999999999999 in binary64 (with a power
    function that returns the base at exponent 1) and 115 in exact
    arithmetic. *)
Theorem outcome_table_rows :
  (forall (num : Type) (N : JsNumber num) (pow : num -> Z -> num)
          (sb risk rr : num) (n : Z),
     let table := calculateWinRateOutcomes pow sb risk rr n in
     length table = 9%nat /\
     map (@WinRateOutcome.winRate num) table = [10; 20; 30; 40; 50; 60; 70; 80; 90]%Z /\
     Forall (fun row =>
               WinRateOutcome.finalBalance row
               = (sb * pow ((num_of_Z (WinRateOutcome.winRate row) / num_of_Z 100)
                              * (num_of_Z 1 + (risk / num_of_Z 100) * rr)
                            + (num_of_Z 1 - num_of_Z (WinRateOutcome.winRate row) / num_of_Z 100)
                              * (num_of_Z 1 - risk / num_of_Z 100)) n)%js) table) /\
  (forall pow : float -> Z -> float,
     (forall x, pow x 1%Z = x) ->
     exists row,
       nth_error (calculateWinRateOutcomes pow 100 10 4 1) 4 = Some row /\
       WinRateOutcome.winRate row = 50%Z /\
       WinRateOutcome.finalBalance row = 114.99999999999999 /\
       (115 - WinRateOutcome.finalBalance row <? 0.00000000000002) = true) /\
  (exists row,
     nth_error (calculateWinRateOutcomes Qpower 100 10 4 1)%Q 4 = Some row /\
     WinRateOutcome.winRate row = 50%Z /\
     (WinRateOutcome.finalBalance row == 115)%Q).
Proof.
  split; [|split].
  - intros num N pow sb risk rr n table. subst table.
    rewrite outcome_table_unfold. repeat split.
    repeat constructor.
  - intros pow Hpow. eexists. split; [reflexivity|].
    cbn [WinRateOutcome.finalBalance outcome_row WinRateOutcome.winRate]. rewrite Hpow.
    repeat split.
  - eexists. split; [reflexivity|]. split; reflexivity.
Qed.

(** C6 (amended), with the power computed by multiplication. *)
Lemma outcome_table_rows_witness :
  exists row,
    nth_error (calculateWinRateOutcomes pow_by_multiplication 100 10 4 1) 4 = Some row /\
    WinRateOutcome.winRate row = 50%Z /\
    WinRateOutcome.finalBalance row = 114.99999999999999.
Proof.
  destruct (proj1 (proj2 outcome_table_rows) pow_by_multiplication)
    as [row [Hrow [Hwr [Hbal _]]]].
  - intros x. reflexivity.
  - exists row. split; [exact Hrow|]. split; [exact Hwr | exact Hbal].
Defined.

(** ** C7: the break-even rate *)

(** C7 as stated fails in the last place: the code computes
    [(1 / (r + 1)) * 100], and at [r = 2] binary64 rounds this to
    33.33333333333333, below the quotient [100 / (2 + 1)], which is
    33.333333333333336.  The difference can be seen in a flag: at
    [r = 0.4285714285714285] the code's rate is 70, so the 70% row counts as
    break-even, while the quotient is above 70. *)
Lemma break_even_rate_rounding :
  (0 <? 2) = true /\
  calculateBreakEvenRate 2 = (1 / (2 + 1)) * 100 /\
  (calculateBreakEvenRate 2 =? 100 / (2 + 1)) = false /\
  (calculateBreakEvenRate 2 <? 100 / (2 + 1)) = true /\
  (0 <? 0.4285714285714285) = true /\
  (70 >=? calculateBreakEvenRate 0.4285714285714285)%js = true /\
  (70 >=? 100 / (0.4285714285714285 + 1))%js = false.
Proof. repeat split. Qed.

(** C7 (amended).  [calculateBreakEvenRate r] is 100 for every [r <= 0] and
    [(1 / (r + 1)) * 100] for every [r > 0]; it has no other argument.  In
    exact arithmetic the latter is [100 / (r + 1)]; in binary64 the values at
    4, 0 and 1 are exactly 20, 100 and 50. *)
Theorem break_even_rate_formula :
  (forall r : float, (r <=? 0) = true -> calculateBreakEvenRate r = 100) /\
  (forall r : float, (0 <? r) = true -> calculateBreakEvenRate r = (1 / (r + 1)) * 100) /\
  calculateBreakEvenRate 4 = 20 /\
  calculateBreakEvenRate 0 = 100 /\
  calculateBreakEvenRate 1 = 50 /\
  (forall r : Q, (r <= 0)%Q -> calculateBreakEvenRate r = 100%Q) /\
  (forall r : Q, (0 < r)%Q -> (calculateBreakEvenRate r == 100 / (r + 1))%Q).
Proof.
  repeat split.
  - intros r H. unfold calculateBreakEvenRate.
    change (r <=? num_of_Z 0)%js with (r <=? 0). rewrite H. reflexivity.
  - intros r H. unfold calculateBreakEvenRate.
    change (r <=? num_of_Z 0)%js with (r <=? 0).
    rewrite (float_ltb_not_leb 0 r H). reflexivity.
  - intros r H. unfold calculateBreakEvenRate.
    change (r <=? num_of_Z 0)%js with (Qle_bool r 0).
    apply Qle_bool_iff in H. rewrite H. reflexivity.
  - intros r H. unfold calculateBreakEvenRate.
    change (r <=? num_of_Z 0)%js with (Qle_bool r 0).
    destruct (Qle_bool r 0) eqn:E.
    + apply Qle_bool_iff in E. lra.
    + cbn [num_mul num_div num_add num_of_Z Exact].
      change (inject_Z 1) with 1%Q. change (inject_Z 100) with 100%Q.
      field. lra.
Qed.

(** C7 (amended), at the ratios 4 and -1 and at the exact ratio 4. *)
Lemma break_even_rate_formula_witness :
  calculateBreakEvenRate (-1) = 100 /\
  calculateBreakEvenRate 4 = (1 / (4 + 1)) * 100 /\
  calculateBreakEvenRate (-1)%Q = 100%Q /\
  (calculateBreakEvenRate 4%Q == 100 / (4 + 1))%Q.
Proof.
  destruct break_even_rate_formula as [Hle [Hgt [_ [_ [_ [Qle Qgt]]]]]].
  split; [|split; [|split]].
  - apply Hle. reflexivity.
  - apply Hgt. reflexivity.
  - apply Qle. discriminate.
  - apply Qgt. reflexivity.
Defined.

(** ** C8: the shape of the trajectory *)

(** C8.  For a trade count that is not negative the trajectory has exactly
    [numTrades + 1] records, their trade indices are 0, 1, ..., numTrades in
    this order, and the record of index 0 carries the start balance and no
    outcome; whether the ruin branch was taken plays no role. *)
Theorem trajectory_length_and_indices {num : Type} {N : JsNumber num}
    (startBalance riskPerTrade rrRatio : num) (numTrades : Z) (winRate : num)
    (g : RandomState num) :
  (0 <= numTrades)%Z ->
  let h := tradeHistory
             (fst (simulateTrades startBalance riskPerTrade rrRatio numTrades winRate g)) in
  (Z.of_nat (length h) = numTrades + 1)%Z /\
  map (@trade num) h = map Z.of_nat (seq 0 (S (Z.to_nat numTrades))) /\
  nth_error h 0 = Some {| trade := 0; balance := startBalance; isWin := None |}.
Proof.
  intros Hn h. subst h. rewrite simulateTrades_run.
  destruct (run _ _ _ _ _ _ _ _) as [[fb l] g'] eqn:Hrun.
  cbn [fst tradeHistory].
  split; [|split].
  - cbn [length].
    rewrite (run_length _ _ _ _ _ _ _ _ _ _ _ Hrun (trip_count numTrades)). lia.
  - cbn [map seq].
    rewrite (run_trades _ _ _ _ _ _ _ _ _ _ _ Hrun (trip_count numTrades)).
    rewrite <- seq_shift, map_map. f_equal. apply map_ext. intros k. lia.
  - reflexivity.
Qed.

(** C8, at a run of thirteen trades that is ruined at the twelfth. *)
Lemma trajectory_length_and_indices_witness :
  let h := tradeHistory (fst (simulateTrades 10 45 4 13 50 losing_streak)) in
  (0 <= 13)%Z /\
  (Z.of_nat (length h) = 13 + 1)%Z /\
  map (@trade float) h = map Z.of_nat (seq 0 (S (Z.to_nat 13))) /\
  nth_error h 0 = Some {| trade := 0; balance := 10; isWin := None |}.
Proof.
  split; [lia|].
  apply (trajectory_length_and_indices 10 45 4 13 50 losing_streak). lia.
Defined.

(** ** C9: the sign of the balances *)




(** ** C10: the final balance *)

(** C10 as stated fails at full risk: a loss at 100% risk in the last (here
    the only) trade leaves exactly 0, so the last record carries 0, the same
    as the returned final balance, and no positive value. *)
Lemma last_trade_ruin_at_full_risk :
  let out := fst (simulateTrades 100 100 4 1 50 (draws_of_list [] 0.999)) in
  (0 <? 100) = true /\ (100 <=? 100) = true /\
  last (tradeHistory out) {| trade := 0; balance := 100; isWin := None |}
  = {| trade := 1; balance := 0; isWin := Some false |} /\
  finalBalance out = 0 /\
  (0 <? 0) = false.
Proof. repeat split. Qed.

(** C10 (amended).  As soon as some trade leaves a balance at or below 0.01
    the returned final balance is exactly 0.  When that happens at the very
    last trade, the last record keeps the balance that trade produced (the
    previous balance times the multiplier), so the final balance differs from
    the last record's balance exactly when that balance is not 0. *)
Theorem final_balance_zero_on_ruin {num : Type} {N : JsNumber num}
    (startBalance riskPerTrade rrRatio : num) (numTrades : Z) (winRate : num)
    (g : RandomState num) (t : nat) (r : TradeHistoryItem num) :
  let out := simulateTrades startBalance riskPerTrade rrRatio numTrades winRate g in
  let h := tradeHistory (fst out) in
  nth_error h (S t) = Some r ->
  is_ruinous r = true ->
  finalBalance (fst out) = num_of_Z 0 /\
  (S t = Z.to_nat numTrades -> survives_until h (S t) ->
   exists prev, nth_error h t = Some prev /\
     last h r = r /\
     balance r = balance_after (riskPerTrade / num_of_Z 100)%js rrRatio
                   (winRate / num_of_Z 100)%js
                   (balance prev) (draws g (consumed g + t)) /\
     (balance r <> num_of_Z 0 <-> finalBalance (fst out) <> balance r)).
Proof.
  intros out h Hr Hruin.
  assert (Hfinal : finalBalance (fst out) = num_of_Z 0).
  { subst out h. rewrite simulateTrades_run in *.
    destruct (run _ _ _ _ _ _ _ _) as [[fb l] g'] eqn:Hrun.
    cbn [fst tradeHistory finalBalance nth_error] in *.
    exact (run_final_ruin _ _ _ _ _ _ _ _ _ _ _ t r Hrun Hr Hruin). }
  split; [exact Hfinal|].
  intros Hlast Hs.
  destruct (surviving_trade_record startBalance riskPerTrade rrRatio numTrades
              winRate g t r Hs Hr) as [prev [Hp E]].
  exists prev. split; [exact Hp|]. split; [|split].
  - subst out h. rewrite simulateTrades_run in *.
    destruct (run _ _ _ _ _ _ _ _) as [[fb l] g'] eqn:Hrun.
    cbn [fst tradeHistory finalBalance nth_error] in *.
    pose proof (run_length _ _ _ _ _ _ _ _ _ _ _ Hrun (trip_count numTrades)) as Hlen.
    destruct (nth_error_split l t Hr) as [l1 [l2 [El Et]]].
    assert (l2 = []).
    { destruct l2; [reflexivity|]. subst l. rewrite length_app in Hlen.
      simpl in Hlen. lia. }
    subst l2 l.
    change ({| trade := 0; balance := startBalance; isWin := None |} :: l1 ++ [r])
      with (({| trade := 0; balance := startBalance; isWin := None |} :: l1) ++ [r]).
    apply last_last.
  - rewrite E. reflexivity.
  - rewrite Hfinal. split; intros Hne Heq; apply Hne; congruence.
Qed.

(** C10 (amended), at the losing run cut to twelve trades: ruin at the last
    trade, final balance 0, last record positive. *)
Lemma final_balance_zero_on_ruin_witness :
  let out := fst (simulateTrades 10 45 4 12 50 losing_streak) in
  let h := tradeHistory out in
  exists r, nth_error h 12 = Some r /\ is_ruinous r = true /\
    finalBalance out = 0 /\
    (exists prev, nth_error h 11 = Some prev /\ last h r = r /\
       finalBalance out <> balance r).
Proof.
  intros out h.
  destruct (nth_error h 12) as [r|] eqn:Hr; [|discriminate Hr].
  assert (Hruin : is_ruinous r = true).
  { vm_compute in Hr. inversion Hr. reflexivity. }
  exists r. split; [reflexivity|]. split; [exact Hruin|].
  destruct (final_balance_zero_on_ruin 10 45 4 12 50 losing_streak 11 r Hr Hruin)
    as [Hfin Hlast].
  split; [exact Hfin|].
  destruct Hlast as [prev [Hp [Hl [_ Hne]]]].
  - reflexivity.
  - intros s x Hs Hx.
    do 12 (destruct s as [|s];
           [ try lia; vm_compute in Hx; inversion Hx; reflexivity | ]).
    lia.
  - exists prev. split; [exact Hp|]. split; [exact Hl|].
    apply Hne. vm_compute in Hr. inversion Hr.
    apply float_eqb_false_neq; reflexivity.
Defined.

(** * Further properties of the code *)

(** ** More on the loop of [simulateTrades] *)

Section MoreLoopFacts.

Context {num : Type} {N : JsNumber num}.
Local Open Scope Z_scope.

Variables riskDecimal rrRatio winRateDecimal : num.

Local Abbreviation Item := (TradeHistoryItem num).
Local Abbreviation the_record := (record_of riskDecimal rrRatio winRateDecimal).

(* One more iteration, for a run whose trade count is [nT]. *)
Ltac run_cases_at nT n i b g H :=
  rewrite run_S in H; cbv zeta in H;
  let E := fresh "Eruin" in
  destruct (is_ruinous (the_record i b (next_draw g))) eqn:E;
  [ inversion H; subst; clear H
  | let fb := fresh "fb" in let l := fresh "l" in let g' := fresh "g'" in
    let R := fresh "Hrun" in
    destruct (run riskDecimal rrRatio winRateDecimal nT n (i + 1)
                (balance (the_record i b (next_draw g))) (advance g))
      as [[fb l] g'] eqn:R;
    inversion H; subst; clear H ].

Lemma run_consumed_bound nT n : forall i b g fb (l : list Item) g',
  run riskDecimal rrRatio winRateDecimal nT n i b g = (fb, l, g') ->
  (consumed g <= consumed g' <= consumed g + n)%nat.
Proof.
  induction n as [|n IH]; intros i b g fb l g' H.
  - inversion H; subst. lia.
  - run_cases_at nT n i b g H.
    + simpl. lia.
    + apply IH in Hrun. simpl in Hrun. lia.
Qed.

Lemma last_cons_default (A : Type) (l : list A) (a d : A) :
  last (a :: l) d = last l a.
Proof.
  revert a d. induction l as [|x l IH]; intros a d; [reflexivity|].
  change (last (a :: x :: l) d) with (last (x :: l) d).
  rewrite !IH. reflexivity.
Qed.

(* A run without a ruinous trade reads one draw per trade and ends on the
   balance of its last record. *)
Lemma run_alive nT n : forall i b g fb (l : list Item) g' (p : Item),
  run riskDecimal rrRatio winRateDecimal nT n i b g = (fb, l, g') ->
  balance p = b ->
  (forall s x, nth_error l s = Some x -> is_ruinous x = false) ->
  consumed g' = (consumed g + n)%nat /\ fb = balance (last l p).
Proof.
  induction n as [|n IH]; intros i b g fb l g' p H Hp Ha.
  - inversion H; subst. simpl. split; [lia | reflexivity].
  - run_cases_at nT n i b g H.
    + specialize (Ha 0%nat _ eq_refl). congruence.
    + destruct (IH _ _ _ _ _ _ (the_record i (balance p) (next_draw g)) Hrun eq_refl)
        as [Hc Hf].
      * intros s x Hx. apply (Ha (S s) x). exact Hx.
      * simpl in Hc. split; [lia|]. now rewrite Hf, last_cons_default.
Qed.

Lemma padding_outcomes n : forall j (x : Item),
  In x (padding n j) -> isWin x = Some false.
Proof.
  induction n as [|n IH]; intros j x Hx; [destruct Hx|].
  destruct Hx as [E|Hx]; [subst x; reflexivity | exact (IH _ _ Hx)].
Qed.

(* Every record the loop appends has an outcome. *)
Lemma run_outcomes nT n : forall i b g fb (l : list Item) g' x,
  run riskDecimal rrRatio winRateDecimal nT n i b g = (fb, l, g') ->
  In x l -> isWin x <> None.
Proof.
  induction n as [|n IH]; intros i b g fb l g' x H Hx.
  - inversion H; subst. destruct Hx.
  - run_cases_at nT n i b g H; (destruct Hx as [E|Hx]; [subst x; discriminate|]).
    + rewrite (padding_outcomes _ _ _ Hx). discriminate.
    + exact (IH _ _ _ _ _ _ _ Hrun Hx).
Qed.

Lemma firstn_padding k : forall n j,
  (k <= n)%nat -> firstn k (padding (num:=num) n j) = padding k j.
Proof.
  induction k as [|k IH]; intros n j Hk; [reflexivity|].
  destruct n as [|n]; [lia|]. cbn [padding firstn]. rewrite IH by lia. reflexivity.
Qed.

(* The records of a shorter run are the first records of a longer one. *)
Lemma run_prefix (shorter longer : Z) k : forall n i b g,
  k = Z.to_nat (shorter + 1 - i) -> n = Z.to_nat (longer + 1 - i) ->
  shorter <= longer ->
  firstn k (snd (fst (run riskDecimal rrRatio winRateDecimal longer n i b g)))
  = snd (fst (run riskDecimal rrRatio winRateDecimal shorter k i b g)).
Proof.
  induction k as [|k IH]; intros n i b g Hk Hn Hle; [reflexivity|].
  destruct n as [|n]; [lia|].
  rewrite !run_S. cbv zeta.
  destruct (is_ruinous (the_record i b (next_draw g))).
  - cbn [fst snd firstn]. f_equal.
    rewrite firstn_padding by lia. f_equal. lia.
  - specialize (IH n (i + 1) (balance (the_record i b (next_draw g))) (advance g)
                  ltac:(lia) ltac:(lia) Hle).
    destruct (run _ _ _ longer n _ _ _) as [[fb1 l1] g1].
    destruct (run _ _ _ shorter k _ _ _) as [[fb2 l2] g2].
    cbn [fst snd firstn] in *. now rewrite IH.
Qed.

End MoreLoopFacts.

(** X1.  [simulateTrades] reads at most [numTrades] numbers from the
    generator and leaves its sequence as it was.  When no trade leaves a
    balance at or below 0.01 it reads exactly [numTrades] numbers and the
    final balance it returns is the balance of the last record. *)
Theorem draws_read_and_final_balance {num : Type} {N : JsNumber num}
    (startBalance riskPerTrade rrRatio : num) (numTrades : Z) (winRate : num)
    (g : RandomState num) :
  let out := simulateTrades startBalance riskPerTrade rrRatio numTrades winRate g in
  let h := tradeHistory (fst out) in
  (consumed g <= consumed (snd out) <= consumed g + Z.to_nat numTrades)%nat /\
  draws (snd out) = draws g /\
  ((forall t x, (1 <= t)%nat -> nth_error h t = Some x -> is_ruinous x = false) ->
   consumed (snd out) = (consumed g + Z.to_nat numTrades)%nat /\
   finalBalance (fst out)
   = balance (last h {| trade := 0; balance := startBalance; isWin := None |})).
Proof.
  intros out h. subst out h. rewrite simulateTrades_run.
  destruct (run _ _ _ _ _ _ _ _) as [[fb l] g'] eqn:Hrun.
  cbn [fst snd tradeHistory finalBalance].
  split; [exact (run_consumed_bound _ _ _ _ _ _ _ _ _ _ _ Hrun)|].
  split; [exact (run_draws _ _ _ _ _ _ _ _ _ _ _ Hrun)|].
  intros Ha.
  destruct (run_alive _ _ _ _ _ _ _ _ _ _ _
              {| trade := 0; balance := startBalance; isWin := None |} Hrun eq_refl)
    as [Hc Hf].
  - intros s x Hx. apply (Ha (S s) x); [lia | exact Hx].
  - split; [exact Hc|]. now rewrite Hf, last_cons_default.
Qed.

(** X1, at a run of three winning trades. *)
Lemma draws_read_and_final_balance_witness :
  let out := simulateTrades 100 10 4 3 50 (draws_of_list [] 0) in
  consumed (snd out) = 3%nat /\
  finalBalance (fst out)
  = balance (last (tradeHistory (fst out))
               {| trade := 0; balance := 100; isWin := None |}).
Proof.
  intros out.
  destruct (draws_read_and_final_balance 100 10 4 3 50 (draws_of_list [] 0))
    as [_ [_ H]].
  apply H. intros t x Ht Hx.
  do 4 (destruct t as [|t];
        [ try lia; vm_compute in Hx; inversion Hx; reflexivity | ]).
  destruct t; discriminate Hx.
Defined.

(** X2.  Asking for more trades only extends a trajectory: with the same
    parameters and generator, the first [k + 1] records of the run of
    [numTrades] trades are the trajectory of the run of [k] trades, for
    [0 <= k <= numTrades], ruin or not. *)
Theorem shorter_run_is_a_prefix {num : Type} {N : JsNumber num}
    (startBalance riskPerTrade rrRatio : num) (k numTrades : Z) (winRate : num)
    (g : RandomState num) :
  (0 <= k <= numTrades)%Z ->
  firstn (S (Z.to_nat k))
    (tradeHistory (fst (simulateTrades startBalance riskPerTrade rrRatio numTrades winRate g)))
  = tradeHistory (fst (simulateTrades startBalance riskPerTrade rrRatio k winRate g)).
Proof.
  intros [Hk Hle]. rewrite !simulateTrades_run.
  pose proof (run_prefix (riskPerTrade / num_of_Z 100)%js rrRatio
                (winRate / num_of_Z 100)%js k numTrades (Z.to_nat k)
                (Z.to_nat numTrades) 1%Z startBalance g
                (trip_count k) (trip_count numTrades) Hle) as H.
  destruct (run _ _ _ numTrades _ _ _ _) as [[fb1 l1] g1].
  destruct (run _ _ _ k _ _ _ _) as [[fb2 l2] g2].
  cbn [fst snd tradeHistory firstn] in *. now rewrite H.
Qed.

(** X2, at the losing run: its first six records are the run of five
    trades. *)
Lemma shorter_run_is_a_prefix_witness :
  firstn 6 (tradeHistory (fst (simulateTrades 10 45 4 13 50 losing_streak)))
  = tradeHistory (fst (simulateTrades 10 45 4 5 50 losing_streak)).
Proof.
  apply (shorter_run_is_a_prefix 10 45 4 5 13 50 losing_streak). lia.
Defined.

(** X3.  In every trajectory the outcome [isWin] is absent at position 0 and
    present at every later position. *)
Theorem outcome_absent_only_at_start {num : Type} {N : JsNumber num}
    (startBalance riskPerTrade rrRatio : num) (numTrades : Z) (winRate : num)
    (g : RandomState num) (t : nat) (x : TradeHistoryItem num) :
  nth_error
    (tradeHistory (fst (simulateTrades startBalance riskPerTrade rrRatio numTrades winRate g)))
    t = Some x ->
  (isWin x = None <-> t = 0%nat).
Proof.
  rewrite simulateTrades_run.
  destruct (run _ _ _ _ _ _ _ _) as [[fb l] g'] eqn:Hrun.
  cbn [fst tradeHistory]. intros Hx.
  destruct t as [|t]; cbn [nth_error] in Hx.
  - inversion Hx. split; reflexivity.
  - split; [|discriminate]. intros E. exfalso.
    exact (run_outcomes _ _ _ _ _ _ _ _ _ _ _ _ Hrun (nth_error_In _ _ Hx) E).
Qed.

(** X3, at trade 13 of the losing run. *)
Lemma outcome_absent_only_at_start_witness :
  exists x,
    nth_error (tradeHistory (fst (simulateTrades 10 45 4 13 50 losing_streak))) 13
    = Some x /\
    (isWin x = None <-> 13%nat = 0%nat).
Proof.
  eexists. split; [reflexivity|].
  apply (outcome_absent_only_at_start 10 45 4 13 50 losing_streak). reflexivity.
Defined.

(** ** Binary64: more order facts *)

Section Binary64Bounds.

Local Open Scope float_scope.

Lemma SFeqb_refl_finite f : SFfinite f = true -> SFeqb f f = true.
Proof.
  destruct f as [s|s| |s m e]; try discriminate; intros _; unfold SFeqb; simpl.
  - reflexivity.
  - rewrite Z.compare_refl, Pos.compare_cont_refl. destruct s; reflexivity.
Qed.

Lemma is_finite_SF (x : float) : is_finite x = SFfinite (Prim2SF x).
Proof.
  unfold is_finite, is_nan, is_infinity.
  rewrite !FloatAxioms.eqb_spec, FloatAxioms.abs_spec.
  change (Prim2SF infinity) with (S754_infinity false).
  destruct (Prim2SF x) as [s|s| |s m e] eqn:E; simpl.
  - reflexivity.
  - destruct s; reflexivity.
  - reflexivity.
  - unfold SFeqb. simpl.
    rewrite Z.compare_refl, Pos.compare_cont_refl. destruct s; reflexivity.
Qed.

Lemma SFleb_between a x b :
  SFfinite a = true -> SFfinite b = true ->
  SFleb a x = true -> SFleb x b = true -> SFfinite x = true.
Proof.
  unfold SFleb.
  destruct a as [sa|sa| |sa ma ea], b as [sb|sb| |sb mb eb], x as [sx|sx| |sx mx ex];
    try discriminate; try reflexivity; intros _ _; simpl;
    destruct sx; try destruct sa; try destruct sb; simpl; discriminate.
Qed.

(* A number between two finite numbers is finite. *)
Lemma float_between_finite (a x b : float) :
  is_finite a = true -> is_finite b = true ->
  (a <=? x) = true -> (x <=? b) = true -> is_finite x = true.
Proof.
  rewrite !is_finite_SF, !FloatAxioms.leb_spec. apply SFleb_between.
Qed.

Lemma SFltb_leb_trans a b c :
  SFltb a b = true -> SFleb b c = true -> SFltb a c = true.
Proof.
  unfold SFltb, SFleb.
  destruct a as [sa|sa| |sa ma ea], b as [sb|sb| |sb mb eb], c as [sc|sc| |sc mc ec];
    try destruct sa; try destruct sb; try destruct sc; simpl;
    try reflexivity; try discriminate; try (intros; assumption).
  all: fold (Pos.compare ma mb); fold (Pos.compare mb mc); fold (Pos.compare ma mc).
  all: destruct (Z.compare_spec ea eb), (Z.compare_spec eb ec), (Z.compare_spec ea ec);
    try lia; try reflexivity; try discriminate; subst.
  all: destruct (Pos.compare_spec ma mb), (Pos.compare_spec mb mc), (Pos.compare_spec ma mc);
    simpl; try lia; try reflexivity; try discriminate.
Qed.

Lemma float_ltb_leb_trans (x y z : float) :
  (x <? y) = true -> (y <=? z) = true -> (x <? z) = true.
Proof.
  rewrite !FloatAxioms.ltb_spec, FloatAxioms.leb_spec. apply SFltb_leb_trans.
Qed.

Lemma SFleb_ltb_trans a b c :
  SFleb a b = true -> SFltb b c = true -> SFltb a c = true.
Proof.
  unfold SFltb, SFleb.
  destruct a as [sa|sa| |sa ma ea], b as [sb|sb| |sb mb eb], c as [sc|sc| |sc mc ec];
    try destruct sa; try destruct sb; try destruct sc; simpl;
    try reflexivity; try discriminate; try (intros; assumption).
  all: fold (Pos.compare ma mb); fold (Pos.compare mb mc); fold (Pos.compare ma mc).
  all: destruct (Z.compare_spec ea eb), (Z.compare_spec eb ec), (Z.compare_spec ea ec);
    try lia; try reflexivity; try discriminate; subst.
  all: destruct (Pos.compare_spec ma mb), (Pos.compare_spec mb mc), (Pos.compare_spec ma mc);
    simpl; try lia; try reflexivity; try discriminate.
Qed.

Lemma float_leb_ltb_trans (x y z : float) :
  (x <=? y) = true -> (y <? z) = true -> (x <? z) = true.
Proof.
  rewrite !FloatAxioms.ltb_spec, FloatAxioms.leb_spec. apply SFleb_ltb_trans.
Qed.

Lemma nan_add_l (y : float) : nan + y = nan.
Proof.
  apply Prim2SF_inj. rewrite FloatAxioms.add_spec.
  change (Prim2SF nan) with S754_nan. reflexivity.
Qed.

Lemma nan_div_r (x : float) : x / nan = nan.
Proof.
  apply Prim2SF_inj. rewrite FloatAxioms.div_spec.
  change (Prim2SF nan) with S754_nan. destruct (Prim2SF x); reflexivity.
Qed.

End Binary64Bounds.

(** X4.  In binary64, after a run in which some trade left a balance at or
    below 0.01, [isPositive] is false for the returned final balance whenever
    the start balance is above 0: a ruined run is never shown as a gain. *)
Theorem ruined_run_is_not_positive
    (startBalance riskPerTrade rrRatio : float) (numTrades : Z) (winRate : float)
    (g : RandomState float) (t : nat) (r : TradeHistoryItem float) :
  let out := simulateTrades startBalance riskPerTrade rrRatio numTrades winRate g in
  (0 <? startBalance) = true ->
  nth_error (tradeHistory (fst out)) (S t) = Some r ->
  is_ruinous r = true ->
  isPositive (finalBalance (fst out)) startBalance = false.
Proof.
  intros out Hsb Hr Hruin. subst out. rewrite simulateTrades_run in *.
  destruct (run _ _ _ _ _ _ _ _) as [[fb l] g'] eqn:Hrun.
  cbn [fst tradeHistory finalBalance nth_error] in *.
  rewrite (run_final_ruin _ _ _ _ _ _ _ _ _ _ _ t r Hrun Hr Hruin).
  exact (float_ltb_not_leb 0 startBalance Hsb).
Qed.

(** X4, at the losing run. *)
Lemma ruined_run_is_not_positive_witness :
  isPositive (finalBalance (fst (simulateTrades 10 45 4 13 50 losing_streak))) 10 = false.
Proof.
  destruct (nth_error (tradeHistory (fst (simulateTrades 10 45 4 13 50 losing_streak))) 12)
    as [r|] eqn:Hr; [|discriminate Hr].
  apply (ruined_run_is_not_positive 10 45 4 13 50 losing_streak 11 r).
  - reflexivity.
  - exact Hr.
  - vm_compute in Hr. inversion Hr. reflexivity.
Defined.

(** X5.  In binary64, when the reward ratio is at most 0 the break-even rate
    is 100 and no row of the outcome table is flagged; when the ratio is NaN
    the rate is NaN and again no row is flagged. *)
Theorem no_reward_no_break_even_row :
  (forall (pow : float -> Z -> float) (sb risk rr : float) (n : Z),
     (rr <=? 0) = true ->
     Forall (fun row => WinRateOutcome.isBreakEven row = false)
            (calculateWinRateOutcomes pow sb risk rr n)) /\
  calculateBreakEvenRate nan = nan /\
  (forall (pow : float -> Z -> float) (sb risk : float) (n : Z),
     Forall (fun row => WinRateOutcome.isBreakEven row = false)
            (calculateWinRateOutcomes pow sb risk nan n)).
Proof.
  assert (Hnan : calculateBreakEvenRate nan = nan).
  { unfold calculateBreakEvenRate.
    change (nan <=? num_of_Z 0)%js with false. cbv iota.
    cbn [num_mul num_div num_add Binary64].
    rewrite nan_add_l, nan_div_r, nan_mul_l. reflexivity. }
  split; [|split].
  - intros pow sb risk rr n Hrr. rewrite outcome_table_unfold.
    assert (E : calculateBreakEvenRate rr = 100).
    { unfold calculateBreakEvenRate.
      change (rr <=? num_of_Z 0)%js with (rr <=? 0). rewrite Hrr. reflexivity. }
    repeat constructor; cbn [WinRateOutcome.isBreakEven outcome_row]; rewrite E;
      reflexivity.
  - exact Hnan.
  - intros pow sb risk n. rewrite outcome_table_unfold.
    repeat constructor; cbn [WinRateOutcome.isBreakEven outcome_row]; rewrite Hnan;
      reflexivity.
Qed.

(** X5, at ratio -1. *)
Lemma no_reward_no_break_even_row_witness :
  Forall (fun row => WinRateOutcome.isBreakEven row = false)
         (calculateWinRateOutcomes pow_by_multiplication 100 10 (-1) 1).
Proof.
  apply (proj1 no_reward_no_break_even_row). reflexivity.
Defined.

(** X6.  In binary64, values that pass the validation schema are five
    numbers, all finite, with start balance, risk, ratio, trade count and win
    rate above 0 and risk and win rate below 100. *)
Theorem validated_values_are_in_range (values : Form.Values) :
  validationSchema values = true ->
  exists sb risk rr n wr,
    numbers_of values = Some (sb, risk, rr, n, wr) /\
    (is_finite sb = true /\ is_finite risk = true /\
     is_finite rr = true /\ is_finite wr = true) /\
    ((0 <? sb) = true /\ (0 <? risk) = true /\ (0 <? rr) = true /\
     (0 < n)%Z /\ (0 <? wr) = true) /\
    ((risk <? 100) = true /\ (wr <? 100) = true) /\
    declaredDomain sb risk rr n wr = true.
Proof.
  destruct values as [[| |sb] [| |risk] [| |rr] [| |n] [| |wr]];
    unfold validationSchema; cbn [Form.startBalance Form.riskPerTrade Form.rrRatio
      Form.numTrades Form.winRate number_between integer_between];
    rewrite ?andb_false_r; try discriminate.
  cbn [FieldLimitConfig.min FieldLimitConfig.max FIELD_LIMITS.startBalance
         FIELD_LIMITS.riskPerTrade FIELD_LIMITS.rrRatio FIELD_LIMITS.numTrades
         FIELD_LIMITS.winRate].
  intros H.
  apply andb_prop in H; destruct H as [H Hwr].
  apply andb_prop in H; destruct H as [H Hn].
  apply andb_prop in H; destruct H as [H Hrr].
  apply andb_prop in H; destruct H as [Hsb Hrisk].
  apply andb_prop in Hsb; destruct Hsb as [Hsb1 Hsb2].
  apply andb_prop in Hrisk; destruct Hrisk as [Hrisk1 Hrisk2].
  apply andb_prop in Hrr; destruct Hrr as [Hrr1 Hrr2].
  apply andb_prop in Hwr; destruct Hwr as [Hwr1 Hwr2].
  apply andb_prop in Hn; destruct Hn as [Hn1 _].
  apply Z.leb_le in Hn1.
  assert (Fsb : is_finite sb = true)
    by (apply (float_between_finite 10 sb 10000); auto).
  assert (Frisk : is_finite risk = true)
    by (apply (float_between_finite 0.5 risk 45); auto).
  assert (Frr : is_finite rr = true)
    by (apply (float_between_finite 0.5 rr 20); auto).
  assert (Fwr : is_finite wr = true)
    by (apply (float_between_finite 1 wr 99); auto).
  assert (Psb : (0 <? sb) = true)
    by (apply (float_ltb_leb_trans 0 10 sb); auto).
  assert (Prisk : (0 <? risk) = true)
    by (apply (float_ltb_leb_trans 0 0.5 risk); auto).
  assert (Prr : (0 <? rr) = true)
    by (apply (float_ltb_leb_trans 0 0.5 rr); auto).
  assert (Pwr : (0 <? wr) = true)
    by (apply (float_ltb_leb_trans 0 1 wr); auto).
  assert (Urisk : (risk <? 100) = true)
    by (apply (float_leb_ltb_trans risk 45 100); auto).
  assert (Uwr : (wr <? 100) = true)
    by (apply (float_leb_ltb_trans wr 99 100); auto).
  exists sb, risk, rr, n, wr.
  split; [reflexivity|].
  split; [auto|]. split; [repeat split; auto; lia|]. split; [auto|].
  unfold declaredDomain.
  rewrite Fsb, Frisk, Frr, Fwr, Psb, Prisk.
  rewrite (float_leb_trans risk 45 100) by auto.
  rewrite (float_leb_trans 0 0.5 rr) by auto.
  rewrite (float_leb_trans 0 1 wr) by auto.
  rewrite (float_leb_trans wr 99 100) by auto.
  assert (E : (0 <? n)%Z = true) by (apply Z.ltb_lt; lia).
  rewrite E. reflexivity.
Qed.

(** X6, at the initial values of the form. *)
Lemma validated_values_are_in_range_witness :
  exists sb risk rr n wr,
    numbers_of initialValues = Some (sb, risk, rr, n, wr) /\
    declaredDomain sb risk rr n wr = true.
Proof.
  destruct (validated_values_are_in_range initialValues)
    as [sb [risk [rr [n [wr [Hn [_ [_ [_ Hd]]]]]]]]].
  - reflexivity.
  - exists sb, risk, rr, n, wr. split; [exact Hn | exact Hd].
Defined.

(** ** The shape of what the simulator returns *)

Section ReturnedShape.

Context {num : Type} {N : JsNumber num}.

Variables (startBalance riskPerTrade rrRatio : num) (numTrades : Z) (winRate : num).

Local Open Scope Z_scope.

Lemma simulateTrades_indices (g : RandomState num) :
  let h := tradeHistory
             (fst (simulateTrades startBalance riskPerTrade rrRatio numTrades winRate g)) in
  map (@trade num) h = map Z.of_nat (seq 0 (length h)).
Proof.
  intros h. subst h. rewrite simulateTrades_run.
  destruct (run _ _ _ _ _ _ _ _) as [[fb l] g'] eqn:Hrun.
  cbn [fst tradeHistory length map seq trade].
  rewrite (run_length _ _ _ _ _ _ _ _ _ _ _ Hrun (trip_count numTrades)).
  rewrite (run_trades _ _ _ _ _ _ _ _ _ _ _ Hrun (trip_count numTrades)).
  f_equal. rewrite <- seq_shift, map_map. apply map_ext. intros k. lia.
Qed.

Lemma simulateTrades_first (g : RandomState num) :
  exists first,
    nth_error (tradeHistory
      (fst (simulateTrades startBalance riskPerTrade rrRatio numTrades winRate g))) 0
    = Some first /\ isWin first = None.
Proof.
  rewrite simulateTrades_run.
  destruct (run _ _ _ _ _ _ _ _) as [[fb l] g'].
  eexists. split; reflexivity.
Qed.

Lemma simulateTrades_final (g : RandomState num) (d : TradeHistoryItem num) :
  let out := fst (simulateTrades startBalance riskPerTrade rrRatio numTrades winRate g) in
  finalBalance out = num_of_Z 0 \/
  finalBalance out = balance (last (tradeHistory out) d).
Proof.
  intros out. subst out. rewrite simulateTrades_run.
  destruct (run _ _ _ _ _ _ _ _) as [[fb l] g'] eqn:Hrun.
  cbn [fst tradeHistory finalBalance].
  destruct (existsb is_ruinous l) eqn:E.
  - left. apply existsb_exists in E. destruct E as [x [Hin Hx]].
    apply In_nth_error in Hin. destruct Hin as [t Ht].
    exact (run_final_ruin _ _ _ _ _ _ _ _ _ _ _ t x Hrun Ht Hx).
  - right. rewrite last_cons_default.
    refine (proj2 (run_alive _ _ _ _ _ _ _ _ _ _ _
                     {| trade := 0; balance := startBalance; isWin := None |}
                     Hrun eq_refl _)).
    intros s x Hs. apply nth_error_In in Hs.
    destruct (is_ruinous x) eqn:Hx; [|reflexivity].
    assert (existsb is_ruinous l = true) by (apply existsb_exists; eauto).
    congruence.
Qed.

End ReturnedShape.

(** ** The component *)

Section ComponentFacts.

Variable Math_pow : float -> Z -> float.

Lemma simulated_results_well_formed (sb risk rr : float) (n : Z) (wr : float)
    (g : RandomState float) (outcomes : list (WinRateOutcome.t float)) :
  (outcomes = [] \/
   map (@WinRateOutcome.winRate float) outcomes = [10; 20; 30; 40; 50; 60; 70; 80; 90]%Z) ->
  results_well_formed
    {| SimulationResultsState.finalBalance :=
         finalBalance (fst (simulateTrades sb risk rr n wr g));
       SimulationResultsState.tradeHistory :=
         tradeHistory (fst (simulateTrades sb risk rr n wr g));
       SimulationResultsState.winRateOutcomes := outcomes |}.
Proof.
  intros Ho. unfold results_well_formed.
  cbn [SimulationResultsState.finalBalance SimulationResultsState.tradeHistory
       SimulationResultsState.winRateOutcomes].
  split; [apply simulateTrades_indices|].
  split; [apply simulateTrades_first|].
  split; [exact Ho|].
  exact (simulateTrades_final sb risk rr n wr g
           {| trade := 0; balance := 0%float; isWin := None |}).
Qed.

Lemma single_record_well_formed (fb b : float) :
  fb = 0%float \/ fb = b ->
  results_well_formed
    {| SimulationResultsState.finalBalance := fb;
       SimulationResultsState.tradeHistory :=
         [{| trade := 0; balance := b; isWin := None |}];
       SimulationResultsState.winRateOutcomes := [] |}.
Proof.
  intros Hfb. unfold results_well_formed. split; [reflexivity|].
  split; [eexists; split; reflexivity|]. split; [left; reflexivity | exact Hfb].
Qed.

Lemma react_preserves_well_formed (c : Component) (e : Event) :
  results_well_formed (simulationResults c) ->
  results_well_formed (simulationResults (react Math_pow c e)).
Proof.
  intros Hc. destruct e as [newValues|errors|errors|errors|]; cbn [react].
  - exact Hc.
  - unfold mainEffect.
    destruct (simulationActive c && areInputsValid errors (values c))%bool.
    + destruct (numbers_of (values c)) as [[[[[sb risk] rr] n] wr]|]; [|exact Hc].
      pose proof (simulated_results_well_formed sb risk rr n wr (generator c)
                    (calculateWinRateOutcomes Math_pow sb risk rr n)
                    (or_intror eq_refl)) as H.
      destruct (simulateTrades sb risk rr n wr (generator c)) as [out g'].
      exact H.
    + destruct (simulationActive c && negb (areInputsValid errors (values c)))%bool;
        [|exact Hc].
      apply single_record_well_formed. left; reflexivity.
  - unfold activationEffect.
    destruct (areInputsValid errors (values c) && negb (simulationActive c))%bool;
      exact Hc.
  - unfold handleRandomize.
    destruct (negb (areInputsValid errors (values c))); [exact Hc|].
    destruct (numbers_of (values c)) as [[[[[sb risk] rr] n] wr]|]; [|exact Hc].
    pose proof (simulated_results_well_formed sb risk rr n wr (generator c)
                  (SimulationResultsState.winRateOutcomes (simulationResults c))
                  (proj1 (proj2 (proj2 Hc)))) as H.
    destruct (simulateTrades sb risk rr n wr (generator c)) as [out g'].
    exact H.
  - apply single_record_well_formed. left; reflexivity.
Qed.

Lemma areInputsValid_blank (errors : Form.Errors) (c : Component) :
  areInputsValid errors (values (handleClear c)) = false.
Proof. unfold areInputsValid. cbv zeta. apply andb_false_r. Qed.

Lemma react_cleared (c : Component) (e : Event) :
  (forall newValues, e <> Edit newValues) ->
  react Math_pow (handleClear c) e = handleClear c.
Proof.
  intros He. destruct e as [newValues|errors|errors|errors|]; cbn [react].
  - destruct (He newValues eq_refl).
  - unfold mainEffect. rewrite areInputsValid_blank. reflexivity.
  - unfold activationEffect. rewrite areInputsValid_blank. reflexivity.
  - unfold handleRandomize. rewrite areInputsValid_blank. reflexivity.
  - reflexivity.
Qed.

End ComponentFacts.

(** X7.  Whatever sequence of edits, effect runs and button clicks the
    component goes through from its first render, and whatever the validation
    errors and the generator are, the results it holds keep their shape: the
    trade indices are 0, 1, 2, ... in order, the first record has no outcome,
    the outcome table is empty or has the win rates 10 to 90, and the final
    balance is 0 or the balance of the last record. *)
Theorem results_stay_well_formed
    (Math_pow : float -> Z -> float) (g : RandomState float) (events : list Event) :
  results_well_formed
    (simulationResults (fold_left (react Math_pow) events (initialComponent g))).
Proof.
  assert (H0 : results_well_formed (simulationResults (initialComponent g)))
    by (apply single_record_well_formed; right; reflexivity).
  revert H0. generalize (initialComponent g).
  induction events as [|e events IH]; intros c Hc; [exact Hc|].
  apply IH. apply react_preserves_well_formed. exact Hc.
Qed.

(** X8.  After the Clear button the component is inert: until the form is
    edited, no effect run and no button click changes it, whatever the
    validation errors are. *)
Theorem cleared_component_is_inert
    (Math_pow : float -> Z -> float) (c : Component) (events : list Event) :
  Forall (fun e => forall newValues, e <> Edit newValues) events ->
  fold_left (react Math_pow) events (handleClear c) = handleClear c.
Proof.
  induction 1 as [|e events He _ IH]; [reflexivity|].
  cbn [fold_left]. rewrite react_cleared by exact He. exact IH.
Qed.

(** X8, at the first render followed by Clear, both effects and Randomize. *)
Lemma cleared_component_is_inert_witness :
  fold_left (react pow_by_multiplication)
    [RunMainEffect (fun _ => None); RunActivationEffect (fun _ => None);
     ClickRandomize (fun _ => None); ClickClear]
    (handleClear (initialComponent losing_streak))
  = handleClear (initialComponent losing_streak).
Proof.
  apply cleared_component_is_inert.
  repeat constructor; intros newValues; discriminate.
Defined.

(** ** Binary64: the break-even rate is a number *)

Section Binary64Rate.

Local Open Scope float_scope.

Lemma float_not_nan_cases (x : float) :
  PrimFloat.is_nan x = false -> (x <=? 0) = true \/ (0 <? x) = true.
Proof.
  unfold PrimFloat.is_nan.
  rewrite FloatAxioms.eqb_spec, FloatAxioms.leb_spec, FloatAxioms.ltb_spec.
  change (Prim2SF 0) with (S754_zero false).
  destruct (Prim2SF x) as [s|s| |s m e]; unfold SFleb, SFltb; cbn.
  - intros _. left. reflexivity.
  - intros _. destruct s; [left | right]; reflexivity.
  - discriminate.
  - intros _. destruct s; [left | right]; reflexivity.
Qed.

Lemma break_even_rate_sign (rr : float) :
  (0 <? rr) = true ->
  SFhas_sign false (Prim2SF ((1 / (rr + 1)) * 100)).
Proof.
  intros H. apply float_pos_sign in H. destruct H as [Hs _].
  destruct one_SF as [m1 [e1 E1]]. destruct hundred_SF as [m100 [e100 E100]].
  assert (S1 : SFhas_sign false (Prim2SF (rr + 1))).
  { rewrite FloatAxioms.add_spec, E1. unfold SF64add.
    apply SFadd_sign; [exact Hs | reflexivity]. }
  assert (S2 : SFhas_sign false (Prim2SF (1 / (rr + 1)))).
  { rewrite FloatAxioms.div_spec, E1. unfold SF64div.
    change false with (xorb false false).
    apply SFdiv_sign; [reflexivity | exact S1 | |]; intros s s' [F _]; discriminate F. }
  rewrite FloatAxioms.mul_spec, E100. unfold SF64mul.
  change false with (xorb false false).
  apply SFmul_sign; [exact S2 | reflexivity | |]; intros s s' [_ F]; discriminate F.
Qed.

End Binary64Rate.

(** X13.  In binary64, for every ratio that is not NaN the break-even rate is
    at least 0: it is neither NaN nor negative. *)
Theorem break_even_rate_nonneg (rrRatio : float) :
  PrimFloat.is_nan rrRatio = false ->
  (0 <=? calculateBreakEvenRate rrRatio) = true.
Proof.
  intros H. unfold calculateBreakEvenRate.
  change (rrRatio <=? num_of_Z 0)%js with (rrRatio <=? 0).
  destruct (float_not_nan_cases rrRatio H) as [Hle|Hlt].
  - rewrite Hle. reflexivity.
  - rewrite (float_ltb_not_leb 0 rrRatio Hlt).
    apply float_sign_nonneg. exact (break_even_rate_sign rrRatio Hlt).
Qed.

(** X13, at the ratio 1e308, where the rate is about 1e-306. *)
Lemma break_even_rate_nonneg_witness :
  (0 <=? calculateBreakEvenRate 1e308) = true.
Proof. apply break_even_rate_nonneg. reflexivity. Defined.

(** ** Win rates at the ends of the scale *)

Section ForcedOutcomes.

Context {num : Type} {N : JsNumber num}.

Variables riskDecimal rrRatio winRateDecimal : num.
Variable numTrades : Z.

(* When every draw loses, every record the loop appends is a loss. *)
Lemma run_all_losses n : forall i b g fb (l : list (TradeHistoryItem num)) g',
  (forall k, win_of winRateDecimal (draws g k) = false) ->
  run riskDecimal rrRatio winRateDecimal numTrades n i b g = (fb, l, g') ->
  Forall (fun x => isWin x = Some false) l.
Proof.
  induction n as [|n IH]; intros i b g fb l g' Hd H.
  - inversion H. constructor.
  - rewrite run_S in H. cbv zeta in H.
    assert (Eloss : win_of winRateDecimal (next_draw g) = false) by apply Hd.
    destruct (is_ruinous _) eqn:Eruin.
    + inversion H; subst; clear H. constructor.
      * cbn [isWin record_of]. now rewrite Eloss.
      * apply Forall_forall. intros x Hx. exact (padding_outcomes _ _ _ Hx).
    + destruct (run riskDecimal rrRatio winRateDecimal numTrades n _ _ _)
        as [[fb1 l1] g1] eqn:Hrun.
      inversion H; subst; clear H. constructor.
      * cbn [isWin record_of]. now rewrite Eloss.
      * exact (IH _ _ (advance g) _ _ _ Hd Hrun).
Qed.

End ForcedOutcomes.

(** X16.  In binary64, with every draw in [0,1): at a win rate of 0 or less
    every trade record is a loss; and when the fraction [winRate / 100] the
    code computes is at least 1, as it is at win rate 100, every trade up to
    and including a first ruinous one is recorded as a win. *)
Theorem win_rate_at_the_ends
    (startBalance riskPerTrade rrRatio : float) (numTrades : Z) (winRate : float)
    (g : RandomState float) (t : nat) (r : TradeHistoryItem float) :
  let h := tradeHistory
             (fst (simulateTrades startBalance riskPerTrade rrRatio numTrades winRate g)) in
  (forall k, declaredDraw (draws g k) = true) ->
  nth_error h (S t) = Some r ->
  ((winRate <=? 0) = true -> isWin r = Some false) /\
  ((1 <=? winRate / 100) = true -> survives_until h (S t) -> isWin r = Some true).
Proof.
  intros h Hd Hr. subst h.
  assert (Hd' : forall k, (0 <=? draws g k) = true /\ (draws g k <? 1) = true).
  { intros k. specialize (Hd k). unfold declaredDraw in Hd.
    apply andb_prop in Hd. exact Hd. }
  split.
  - intros Hw. rewrite simulateTrades_run in Hr.
    destruct (run _ _ _ _ _ _ _ _) as [[fb l] g'] eqn:Hrun.
    cbn [fst tradeHistory nth_error] in Hr. apply nth_error_In in Hr.
    assert (Hloss : forall k, win_of (winRate / num_of_Z 100)%js (draws g k) = false).
    { intros k. unfold win_of. apply float_leb_not_ltb.
      apply float_leb_trans with (y := 0).
      - exact (float_percent_nonpos winRate Hw).
      - exact (proj1 (Hd' k)). }
    pose proof (run_all_losses _ _ _ _ _ _ _ _ _ _ _ Hloss Hrun) as H.
    rewrite Forall_forall in H. exact (H r Hr).
  - intros Hw Hs.
    destruct (surviving_trade_record startBalance riskPerTrade rrRatio numTrades winRate
                g t r Hs Hr) as [prev [_ E]].
    subst r. cbn [isWin record_of]. f_equal. unfold win_of.
    exact (float_ltb_leb_trans _ 1 _ (proj2 (Hd' _)) Hw).
Qed.

(** X16, at win rate 100 with every draw 0.5: the second trade is a win. *)
Lemma win_rate_at_the_ends_witness :
  let h := tradeHistory (fst (simulateTrades 100 10 4 2 100 (draws_of_list [] 0.5))) in
  match nth_error h 2 with
  | Some r => isWin r = Some true
  | None => False
  end.
Proof.
  intros h.
  destruct (nth_error h 2) as [r|] eqn:E; [|vm_compute in E; discriminate E].
  apply (win_rate_at_the_ends 100 10 4 2 100 (draws_of_list [] 0.5) 1 r).
  - intros k. destruct k; reflexivity.
  - exact E.
  - reflexivity.
  - intros s x Hs Hx. assert (Es : s = 1%nat) by lia. subst s.
    vm_compute in Hx. inversion Hx. reflexivity.
Defined.

(** ** The main effect on valid inputs *)

Lemma areInputsValid_numbers (errors : Form.Errors) (values : Form.Values) :
  areInputsValid errors values = true ->
  exists sb risk rr n wr, numbers_of values = Some (sb, risk, rr, n, wr).
Proof.
  unfold areInputsValid. cbv zeta. intros H. apply andb_prop in H.
  destruct H as [_ H].
  destruct values as [[| |sb] [| |risk] [| |rr] [| |n] [| |wr]];
    try (simpl in H; discriminate H).
  exists sb, risk, rr, n, wr. reflexivity.
Qed.

(** X17.  When the simulation is active and the inputs are valid, the main
    effect leaves the form and the active flag as they are and replaces the
    results by those of one run on the five numbers of the form: a history of
    [numTrades] + 1 records (one record for a count below 0), the nine rows
    of the outcome table, and a generator advanced by at most [numTrades]
    draws. *)
Theorem main_effect_on_valid_inputs
    (Math_pow : float -> Z -> float) (errors : Form.Errors) (c : Component) :
  simulationActive c = true ->
  areInputsValid errors (values c) = true ->
  exists sb risk rr n wr,
    numbers_of (values c) = Some (sb, risk, rr, n, wr) /\
    let c' := mainEffect Math_pow errors c in
    let out := simulateTrades sb risk rr n wr (generator c) in
    values c' = values c /\
    simulationActive c' = true /\
    SimulationResultsState.finalBalance (simulationResults c') = finalBalance (fst out) /\
    SimulationResultsState.tradeHistory (simulationResults c') = tradeHistory (fst out) /\
    SimulationResultsState.winRateOutcomes (simulationResults c')
    = calculateWinRateOutcomes Math_pow sb risk rr n /\
    generator c' = snd out /\
    length (SimulationResultsState.tradeHistory (simulationResults c')) = S (Z.to_nat n) /\
    length (SimulationResultsState.winRateOutcomes (simulationResults c')) = 9%nat /\
    (consumed (generator c) <= consumed (generator c')
     <= consumed (generator c) + Z.to_nat n)%nat.
Proof.
  intros Hact Hvalid.
  destruct (areInputsValid_numbers errors (values c) Hvalid)
    as [sb [risk [rr [n [wr Hnum]]]]].
  exists sb, risk, rr, n, wr. split; [exact Hnum|]. cbv zeta.
  unfold mainEffect. rewrite Hact, Hvalid, Hnum. cbn [andb].
  rewrite simulateTrades_run.
  destruct (run _ _ _ _ _ _ _ _) as [[fb l] g'] eqn:Hrun.
  cbn [values simulationActive simulationResults generator fst snd
       SimulationResultsState.finalBalance SimulationResultsState.tradeHistory
       SimulationResultsState.winRateOutcomes finalBalance tradeHistory length].
  repeat split; try assumption.
  - f_equal. exact (run_length _ _ _ _ _ _ _ _ _ _ _ Hrun (trip_count n)).
  - exact (proj1 (run_consumed_bound _ _ _ _ _ _ _ _ _ _ _ Hrun)).
  - exact (proj2 (run_consumed_bound _ _ _ _ _ _ _ _ _ _ _ Hrun)).
Qed.

(** X17, at the first render once the simulation is active. *)
Lemma main_effect_on_valid_inputs_witness :
  length (SimulationResultsState.tradeHistory
            (simulationResults
               (mainEffect pow_by_multiplication (fun _ => None)
                  (activationEffect (fun _ => None) (initialComponent losing_streak)))))
  = 101%nat.
Proof.
  destruct (main_effect_on_valid_inputs pow_by_multiplication (fun _ => None)
              (activationEffect (fun _ => None) (initialComponent losing_streak)))
    as [sb [risk [rr [n [wr [Hnum [_ [_ [_ [_ [_ [_ [Hlen _]]]]]]]]]]]]].
  - reflexivity.
  - reflexivity.
  - cbn in Hnum. inversion Hnum; subst. exact Hlen.
Defined.

(** ** The count as a number and the count as an integer *)

Section CountReadings.

Local Open Scope float_scope.

(* Counting in binary64 from 0 to 1002 is exact and keeps the order: checked
   number by number, then extended by transitivity. *)
Lemma counter_chain (k : Z) :
  (0 <= k <= 1001)%Z ->
  (float_of_Z k <=? float_of_Z k) = true /\
  (float_of_Z k <? float_of_Z (k + 1)) = true /\
  float_of_Z k + 1 = float_of_Z (k + 1).
Proof.
  intros Hk.
  assert (H : forallb (fun m =>
                (float_of_Z (Z.of_nat m) <=? float_of_Z (Z.of_nat m))
                && (float_of_Z (Z.of_nat m) <? float_of_Z (Z.of_nat m + 1))
                && PrimFloat.Leibniz.eqb (float_of_Z (Z.of_nat m) + 1)
                                         (float_of_Z (Z.of_nat m + 1)))%bool
                      (seq 0 1002) = true) by (vm_compute; reflexivity).
  rewrite forallb_forall in H.
  specialize (H (Z.to_nat k) ltac:(apply in_seq; lia)).
  rewrite Z2Nat.id in H by lia.
  apply andb_prop in H. destruct H as [H H3].
  apply andb_prop in H. destruct H as [H1 H2].
  apply FloatAxioms.Leibniz.eqb_spec in H3. auto.
Qed.

Lemma counter_succ (k : Z) :
  (0 <= k <= 1001)%Z -> float_of_Z k + 1 = float_of_Z (k + 1).
Proof. intros Hk. apply counter_chain. exact Hk. Qed.

Lemma counter_mono (d : nat) : forall k : Z,
  (0 <= k)%Z -> (k + Z.of_nat d <= 1001)%Z ->
  (float_of_Z k <=? float_of_Z (k + Z.of_nat d)) = true.
Proof.
  induction d as [|d IH]; intros k Hk Hd.
  - replace (k + Z.of_nat 0)%Z with k by lia. apply counter_chain. lia.
  - apply float_leb_trans with (y := float_of_Z (k + Z.of_nat d)).
    + apply IH; lia.
    + replace (k + Z.of_nat (S d))%Z with (k + Z.of_nat d + 1)%Z by lia.
      apply float_ltb_leb. apply counter_chain. lia.
Qed.

Lemma counter_leb (k n : Z) :
  (0 <= k <= 1001)%Z -> (0 <= n <= 1000)%Z ->
  (float_of_Z k <=? float_of_Z n) = (k <=? n)%Z.
Proof.
  intros Hk Hn. destruct (k <=? n)%Z eqn:E.
  - apply Z.leb_le in E.
    replace n with (k + Z.of_nat (Z.to_nat (n - k)))%Z by lia.
    apply counter_mono; lia.
  - apply Z.leb_gt in E. apply float_ltb_not_leb.
    apply float_leb_ltb_trans with (y := float_of_Z (k - 1)).
    + replace (k - 1)%Z with (n + Z.of_nat (Z.to_nat (k - 1 - n)))%Z by lia.
      apply counter_mono; lia.
    + replace k with (k - 1 + 1)%Z at 2 by lia. apply counter_chain. lia.
Qed.

Variables riskDecimal rrRatio winRateDecimal : float.
Variable numTrades : Z.
Hypothesis count_range : (0 <= numTrades <= 1000)%Z.

Lemma for_padding_agree fuel : forall j (h : list (TradeHistoryItem float)),
  (0 <= j <= numTrades + 1)%Z ->
  NumberCount.for_padding (float_of_Z numTrades) fuel (float_of_Z j)
    (map with_number_index h)
  = option_map (map with_number_index) (for_padding numTrades fuel j h).
Proof.
  induction fuel as [|fuel IH]; intros j h Hj; [reflexivity|].
  cbn [NumberCount.for_padding for_padding].
  rewrite counter_leb by lia.
  destruct (j <=? numTrades)%Z eqn:E; [|reflexivity].
  apply Z.leb_le in E.
  rewrite counter_succ by lia.
  rewrite <- IH by lia. rewrite map_app. reflexivity.
Qed.

Lemma for_trades_agree fuel : forall i b (h : list (TradeHistoryItem float)) g,
  (0 <= i <= numTrades + 1)%Z ->
  NumberCount.for_trades riskDecimal rrRatio winRateDecimal (float_of_Z numTrades)
    fuel (float_of_Z i) b (map with_number_index h) g
  = option_map (fun '(fb, h', g') => (fb, map with_number_index h', g'))
      (for_trades riskDecimal rrRatio winRateDecimal numTrades fuel i b h g).
Proof.
  induction fuel as [|fuel IH]; intros i b h g Hi; [reflexivity|].
  cbn [NumberCount.for_trades for_trades].
  rewrite counter_leb by lia.
  destruct (i <=? numTrades)%Z eqn:E; [|reflexivity].
  apply Z.leb_le in E.
  unfold trade_step. cbn [Math_random]. cbv zeta.
  rewrite counter_succ by lia.
  set (b' := if draws g (consumed g) <? winRateDecimal
             then b * (1 + riskDecimal * rrRatio) else b * (1 - riskDecimal)).
  change (if (draws g (consumed g) <? winRateDecimal)%js
          then (b * (num_of_Z 1 + riskDecimal * rrRatio))%js
          else (b * (num_of_Z 1 - riskDecimal))%js) with b'.
  change (b' <=? num_0_01)%js with (b' <=? 0.01).
  set (item := {| trade := i; balance := b';
                  isWin := Some (draws g (consumed g) <? winRateDecimal)%js |}).
  change (map with_number_index h
          ++ [{| NumberCount.trade := float_of_Z i; NumberCount.balance := b';
                 NumberCount.isWin := Some (draws g (consumed g) <? winRateDecimal) |}])
    with (map with_number_index h ++ map with_number_index [item]).
  rewrite <- map_app.
  destruct (b' <=? 0.01).
  - rewrite for_padding_agree by lia.
    destruct (for_padding numTrades fuel (i + 1) (h ++ [item])); reflexivity.
  - apply IH. lia.
Qed.

End CountReadings.

(** X18.  For every integer trade count from 0 to 1000, the largest the form
    admits, the loops with the count and the counters as binary64 numbers end
    and the call returns what the reading with an integer count returns:
    the same final balance, the same records with their indices as numbers,
    and the same generator. *)
Theorem integer_counts_agree
    (startBalance riskPerTrade rrRatio : float) (numTrades : Z) (winRate : float)
    (g : RandomState float) (fuel : nat) :
  (0 <= numTrades <= 1000)%Z ->
  (Z.to_nat numTrades < fuel)%nat ->
  NumberCount.simulateTrades fuel startBalance riskPerTrade rrRatio
    (float_of_Z numTrades) winRate g
  = Some (let '(out, g') :=
            simulateTrades startBalance riskPerTrade rrRatio numTrades winRate g in
          ({| NumberCount.finalBalance := finalBalance out;
              NumberCount.tradeHistory := map with_number_index (tradeHistory out) |},
           g')).
Proof.
  intros Hn Hf. unfold NumberCount.simulateTrades. cbv zeta.
  change [{| NumberCount.trade := 0; NumberCount.balance := startBalance;
             NumberCount.isWin := None |}]
    with (map with_number_index
            [{| trade := 0; balance := startBalance; isWin := None |}]).
  change 1%float with (float_of_Z 1) at 1.
  rewrite (for_trades_agree (riskPerTrade / 100) rrRatio (winRate / 100) numTrades Hn
             fuel 1 startBalance _ g ltac:(lia)).
  change (riskPerTrade / 100) with (riskPerTrade / num_of_Z 100)%js.
  change (winRate / 100) with (winRate / num_of_Z 100)%js.
  rewrite (simulateTrades_as_written startBalance riskPerTrade rrRatio numTrades winRate
             g fuel Hf).
  destruct (simulateTrades startBalance riskPerTrade rrRatio numTrades winRate g)
    as [out g'].
  reflexivity.
Qed.

(** X18, at the initial values of the form: 100 trades. *)
Lemma integer_counts_agree_witness :
  exists out,
    NumberCount.simulateTrades 101 100 10 4 100 50 losing_streak = Some out /\
    length (NumberCount.tradeHistory (fst out)) = 101%nat.
Proof.
  eexists. split.
  - apply (integer_counts_agree 100 10 4 100 50 losing_streak 101); lia.
  - reflexivity.
Defined.
